(** * villagerdb: helpers/url.js

    A shallow embedding of the asset URL helpers of villagerdb
    ([helpers/url.js]) and the properties of its specification.

    The module is a handful of JavaScript functions that probe the
    filesystem for entity images, hash a file with MD5 and splice the
    first seven hex digits of the digest into a URL, in front of the
    extension.

    What is modelled, and how:
    - JavaScript values by the primitive ones: undefined, null, booleans,
      integer Numbers in the safe range, and strings (a string by the
      bytes of its UTF-8 encoding).  Objects passed as arguments, NaN and
      fractions are outside the model.
    - Node's library by what the module calls: [crypto]'s MD5 (RFC 1321),
      [path.join] on POSIX, [process.cwd()], and [fs.existsSync] and
      [fs.readFileSync] as an oracle that does not change while the module
      runs.  Every call to [fs] is recorded, in order, so that "does not
      touch the filesystem" and "hashes once" are statements about a run.
    - An exception ([readFileSync] on a directory) as an outcome of its
      own, next to a normal return.
    - The disks of the examples as trees of directories and regular
      files, paths resolved name by name as the kernel does; symbolic
      links and permissions are outside the model.
    - The module-level object [staticCache] by the finite map of its own
      properties, read through the prototype chain of a plain object. *)

From Stdlib Require Import ZArith String Ascii List Lia DecimalString.
From stdpp Require Import base option list gmap strings.
Import ListNotations.

Open Scope string_scope.
Open Scope Z_scope.
Open Scope nat_scope.
Open Scope list_scope.

(** ** JavaScript strings

    A string is modelled by its bytes (for text outside ASCII: its UTF-8
    encoding).  Every separator the module uses is an ASCII character, so
    splitting and joining on bytes agree with JavaScript's. *)

Module JsString.

Definition dot : ascii := "."%char.
Definition slash : ascii := "/"%char.

(** [s.split(c)] for a one-character separator: never empty, and the
    empty string splits into one empty segment. *)
Fixpoint split (sep : ascii) (s : string) : list string :=
  match s with
  | EmptyString => [EmptyString]
  | String c rest =>
      if Ascii.eqb c sep then EmptyString :: split sep rest
      else match split sep rest with
           | [] => [String c EmptyString]
           | seg :: segs => String c seg :: segs
           end
  end.

(** [a.join(sep)] on an array of strings. *)
Fixpoint join (sep : string) (parts : list string) : string :=
  match parts with
  | [] => EmptyString
  | [p] => p
  | p :: rest => p +:+ sep +:+ join sep rest
  end.

(** [s.substr(0, n)]. *)
Definition substr0 (n : nat) (s : string) : string := String.substring 0 n s.

(** Whether the byte [c] occurs in [s]. *)
Fixpoint contains (c : ascii) (s : string) : bool :=
  match s with
  | EmptyString => false
  | String d rest => Ascii.eqb d c || contains c rest
  end.

End JsString.

(** ** JavaScript primitive values *)

(** Integer-valued Numbers in the range where every integer is a Number
    and [String(n)] is the plain decimal numeral. *)
Definition max_safe_integer : Z := 9007199254740991.

Record safe_integer : Type := SafeInteger {
  int_value : Z;
  int_value_safe : (Z.abs int_value <=? max_safe_integer)%Z = true
}.

Inductive prim : Type :=
| VUndefined
| VNull
| VBool (b : bool)
| VNumber (n : safe_integer)
| VString (s : string).

(** What a property read can give: a primitive, or an object (here only
    the members [staticCache] inherits from [Object.prototype]). *)
Inductive value : Type :=
| Prim (p : prim)
| Builtin (name : string).

Module Js.

(** [ToBoolean]. *)
Definition truthy (p : prim) : bool :=
  match p with
  | VUndefined | VNull => false
  | VBool b => b
  | VNumber n => negb (int_value n =? 0)%Z
  | VString s => negb (String.eqb s "")
  end.

Definition truthy_value (v : value) : bool :=
  match v with
  | Prim p => truthy p
  | Builtin _ => true
  end.

(** [ToString] on a primitive: what [+] with a string and a property
    key do with it. *)
Definition to_string (p : prim) : string :=
  match p with
  | VUndefined => "undefined"
  | VNull => "null"
  | VBool true => "true"
  | VBool false => "false"
  | VNumber n => NilZero.string_of_int (Z.to_int (int_value n))
  | VString s => s
  end.

(** [typeof p === 'string']. *)
Definition is_string (p : prim) : bool :=
  match p with VString _ => true | _ => false end.

(** [p == tag] for a string [tag] that is not a numeral ([Number(tag)] is
    NaN): a string is compared as a string, and no other primitive is
    loosely equal to such a tag. *)
Definition loose_eq_tag (p : prim) (tag : string) : bool :=
  match p with
  | VString s => String.eqb s tag
  | _ => false
  end.

(** The element conversion of [Array.prototype.join]: undefined and null
    become the empty string. *)
Definition join_item (p : prim) : string :=
  match p with
  | VUndefined | VNull => ""
  | _ => to_string p
  end.

(** [a[i]] on an array of strings: undefined out of range. *)
Definition index (a : list string) (i : nat) : prim :=
  match a !! i with
  | Some s => VString s
  | None => VUndefined
  end.

(** A parameter with a default value takes it when the argument is
    undefined. *)
Definition default_param (d : prim) (p : prim) : prim :=
  match p with VUndefined => d | _ => p end.

End Js.

(** ** MD5 ([crypto.createHash('md5')])

    RFC 1321 on 32-bit words held in [Z], the wrap-around written out.
    The test vectors at the end of the file check it against the digests
    Node prints. *)

Module Md5.

Definition mask32 : Z := 0xffffffff.
Definition wrap (x : Z) : Z := Z.land x mask32.
Definition add32 (x y : Z) : Z := wrap (x + y).
Definition not32 (x : Z) : Z := Z.lxor x mask32.
Definition rotl (x s : Z) : Z :=
  wrap (Z.lor (Z.shiftl x s) (Z.shiftr x (32 - s))).

Definition sines : list Z := [
  0xd76aa478; 0xe8c7b756; 0x242070db; 0xc1bdceee; 0xf57c0faf; 0x4787c62a; 0xa8304613; 0xfd469501;
  0x698098d8; 0x8b44f7af; 0xffff5bb1; 0x895cd7be; 0x6b901122; 0xfd987193; 0xa679438e; 0x49b40821;
  0xf61e2562; 0xc040b340; 0x265e5a51; 0xe9b6c7aa; 0xd62f105d; 0x02441453; 0xd8a1e681; 0xe7d3fbc8;
  0x21e1cde6; 0xc33707d6; 0xf4d50d87; 0x455a14ed; 0xa9e3e905; 0xfcefa3f8; 0x676f02d9; 0x8d2a4c8a;
  0xfffa3942; 0x8771f681; 0x6d9d6122; 0xfde5380c; 0xa4beea44; 0x4bdecfa9; 0xf6bb4b60; 0xbebfbc70;
  0x289b7ec6; 0xeaa127fa; 0xd4ef3085; 0x04881d05; 0xd9d4d039; 0xe6db99e5; 0x1fa27cf8; 0xc4ac5665;
  0xf4292244; 0x432aff97; 0xab9423a7; 0xfc93a039; 0x655b59c3; 0x8f0ccc92; 0xffeff47d; 0x85845dd1;
  0x6fa87e4f; 0xfe2ce6e0; 0xa3014314; 0x4e0811a1; 0xf7537e82; 0xbd3af235; 0x2ad7d2bb; 0xeb86d391
]%Z.

Definition shifts : list Z := [
  7; 12; 17; 22; 7; 12; 17; 22; 7; 12; 17; 22; 7; 12; 17; 22;
  5; 9; 14; 20; 5; 9; 14; 20; 5; 9; 14; 20; 5; 9; 14; 20;
  4; 11; 16; 23; 4; 11; 16; 23; 4; 11; 16; 23; 4; 11; 16; 23;
  6; 10; 15; 21; 6; 10; 15; 21; 6; 10; 15; 21; 6; 10; 15; 21
]%Z.

Record state : Type := State { sa : Z; sb : Z; sc : Z; sd : Z }.

Definition initial : state :=
  State 0x67452301 0xefcdab89 0x98badcfe 0x10325476.

(** The bytes of the message, then 0x80, zeros up to 56 modulo 64, and
    the bit length on eight bytes, least significant first. *)
Definition bytes_of (s : string) : list Z :=
  map (fun c => Z.of_N (N_of_ascii c)) (list_ascii_of_string s).

Definition le_bytes (count : nat) (x : Z) : list Z :=
  map (fun i => Z.land (Z.shiftr x (8 * Z.of_nat i)) 0xff) (seq 0 count).

Definition pad (msg : list Z) : list Z :=
  let len := List.length msg in
  let zeros := (64 + 55 - len mod 64) mod 64 in
  msg ++ [0x80%Z] ++ repeat 0%Z zeros ++ le_bytes 8 (8 * Z.of_nat len).

Definition word_of (bytes : list Z) : Z :=
  fold_right (fun b acc => b + 256 * acc)%Z 0%Z bytes.

Fixpoint words (count : nat) (bytes : list Z) : list Z :=
  match count with
  | O => []
  | S k => word_of (firstn 4 bytes) :: words k (skipn 4 bytes)
  end.

Definition step (block : list Z) (st : state) (i : nat) : state :=
  let '(State a b c d) := st in
  let '(f, g) :=
    match i / 16 with
    | 0 => (Z.lor (Z.land b c) (Z.land (not32 b) d), i)
    | 1 => (Z.lor (Z.land d b) (Z.land (not32 d) c), (5 * i + 1) mod 16)
    | 2 => (Z.lxor b (Z.lxor c d), (3 * i + 5) mod 16)
    | _ => (Z.lxor c (Z.lor b (not32 d)), (7 * i) mod 16)
    end in
  let sum := add32 (add32 (add32 f a) (nth i sines 0%Z)) (nth g block 0%Z) in
  State d (add32 b (rotl sum (nth i shifts 0%Z))) b c.

Definition compress (st : state) (block : list Z) : state :=
  let '(State a b c d) := fold_left (step block) (seq 0 64) st in
  State (add32 (sa st) a) (add32 (sb st) b) (add32 (sc st) c) (add32 (sd st) d).

Fixpoint blocks (count : nat) (bytes : list Z) (st : state) : state :=
  match count with
  | O => st
  | S k => blocks k (skipn 64 bytes) (compress st (words 16 (firstn 64 bytes)))
  end.

Definition digest (s : string) : state :=
  let bytes := pad (bytes_of s) in
  blocks (List.length bytes / 64) bytes initial.

Definition hex_digit (x : Z) : ascii :=
  nth (Z.to_nat x)
      (list_ascii_of_string "0123456789abcdef") "0"%char.

Definition hex_byte (b : Z) : string :=
  String (hex_digit (Z.shiftr b 4)) (String (hex_digit (Z.land b 0xf)) EmptyString).

Definition hex_word (w : Z) : string :=
  hex_byte (Z.land w 0xff)
  +:+ hex_byte (Z.land (Z.shiftr w 8) 0xff)
  +:+ hex_byte (Z.land (Z.shiftr w 16) 0xff)
  +:+ hex_byte (Z.land (Z.shiftr w 24) 0xff).

(** [crypto.createHash('md5').update(s, 'utf8').digest('hex')]. *)
Definition hex (s : string) : string :=
  let '(State a b c d) := digest s in
  hex_word a +:+ hex_word b +:+ hex_word c +:+ hex_word d.

End Md5.


(** ** [path.join] (POSIX) *)

Module Path.

(** [normalizeString]: empty and [.] segments are dropped, [..] removes
    the segment before it; at the top it is dropped on an absolute path
    and kept on a relative one.  The stack is kept reversed. *)
Definition push_segment (allow_above_root : bool) (stack : list string)
           (seg : string) : list string :=
  if String.eqb seg "" || String.eqb seg "." then stack
  else if String.eqb seg ".." then
    match stack with
    | top :: below =>
        if String.eqb top ".." then seg :: stack else below
    | [] => if allow_above_root then [seg] else []
    end
  else seg :: stack.

Definition normalize_segments (allow_above_root : bool)
           (segs : list string) : list string :=
  rev (fold_left (push_segment allow_above_root) segs []).

Definition starts_with_slash (p : string) : bool :=
  match p with
  | String c _ => Ascii.eqb c JsString.slash
  | EmptyString => false
  end.

Fixpoint ends_with_slash (p : string) : bool :=
  match p with
  | EmptyString => false
  | String c EmptyString => Ascii.eqb c JsString.slash
  | String _ rest => ends_with_slash rest
  end.

Definition normalize (p : string) : string :=
  if String.eqb p "" then "."
  else
    let is_absolute := starts_with_slash p in
    let trailing := ends_with_slash p in
    let body :=
      JsString.join "/"
        (normalize_segments (negb is_absolute) (JsString.split JsString.slash p)) in
    if String.eqb body "" then
      if is_absolute then "/" else if trailing then "./" else "."
    else
      let body := if trailing then body +:+ "/" else body in
      if is_absolute then "/" +:+ body else body.

(** An absolute path in normal form, from its segments. *)
Definition absolute (segs : list string) (trailing : bool) : string :=
  match segs with
  | [] => "/"
  | _ => "/" +:+ JsString.join "/" segs +:+ (if trailing then "/" else "")
  end.

(** [path.join(...args)]: the non-empty arguments joined by [/], then
    normalized. *)
Definition join (args : list string) : string :=
  match filter (fun a => negb (String.eqb a "")) args with
  | [] => "."
  | parts => normalize (JsString.join "/" parts)
  end.

End Path.

(** A segment of a normalized absolute path. *)
Definition clean_segment (seg : string) : Prop :=
  seg <> "" /\ seg <> "." /\ seg <> ".." /\ JsString.contains JsString.slash seg = false.

(** ** The host: process and filesystem

    What the module asks of Node: the working directory, whether a path
    exists, and the text of a file.  [fs_readFileSync] is [None] where
    [fs.readFileSync(p, 'utf8')] throws (a directory, an unreadable file).
    The filesystem does not change while the module runs. *)

Record host : Type := Host {
  process_cwd : string;
  fs_existsSync : string -> bool;
  fs_readFileSync : string -> option string
}.

(** The calls made to [fs], in the order they are made. *)
Inductive fs_call : Type :=
| ExistsSync (p : string)
| ReadFileSync (p : string).

(** The state of the module: the own properties of [staticCache], and the
    filesystem calls made so far. *)
Record state : Type := State {
  staticCache : gmap string prim;
  fs_calls : list fs_call
}.

Inductive outcome (A : Type) : Type :=
| Return (a : A)
| Throw (error : string).
Arguments Return {A} a.
Arguments Throw {A} error.

(** Computations of the module: a result or an exception, and the state
    after. *)
Definition M (A : Type) : Type := state -> outcome A * state.

Global Instance M_ret : MRet M := fun A a st => (Return a, st).

Global Instance M_bind : MBind M := fun A B k m st =>
  match m st with
  | (Return a, st') => k a st'
  | (Throw e, st') => (Throw e, st')
  end.

Global Instance M_throw : MThrow string M := fun A error st => (Throw error, st).

Definition log_call (c : fs_call) : M unit :=
  fun st => (Return tt, State (staticCache st) (fs_calls st ++ [c])).

(** The state after more filesystem calls. *)
Definition after_calls (st : state) (calls : list fs_call) : state :=
  State (staticCache st) (fs_calls st ++ calls).

(** ** A disk

    A disk of directories and regular files, given by the absolute paths
    of its files, with their text, and of its directories; the
    directories above a listed path exist as well.  There are no symbolic
    links, and the process may search every directory and read every
    file.

    A path is resolved as the kernel does it: name by name from the root,
    or from the working directory for a relative path.  Before each name
    the place reached must be a directory; an empty name and [.] stay
    there, [..] goes to the parent (the root is its own parent), and any
    other name goes to the entry of that name, whether it exists or
    not.  The empty path names nothing. *)
Module Disk.

Inductive node : Type :=
| File (text : string)
| Dir.

(** The names of a listed path: [/a/b] gives [a], [b]. *)
Definition names (p : string) : list string :=
  filter (fun seg => negb (String.eqb seg ""))
         (JsString.split JsString.slash p).

Fixpoint same_names (a b : list string) : bool :=
  match a, b with
  | [], [] => true
  | x :: a', y :: b' => String.eqb x y && same_names a' b'
  | _, _ => false
  end.

(** [path] is [entry] or lies above it. *)
Fixpoint above (path entry : list string) : bool :=
  match path, entry with
  | [], _ => true
  | x :: path', y :: entry' => String.eqb x y && above path' entry'
  | _ :: _, [] => false
  end.

Fixpoint file_at (files : list (string * string)) (path : list string)
  : option string :=
  match files with
  | [] => None
  | (q, text) :: rest =>
      if same_names (names q) path then Some text else file_at rest path
  end.

(** What is at a path given by its names from the root. *)
Definition node_at (files : list (string * string)) (dirs : list string)
           (path : list string) : option node :=
  match path with
  | [] => Some Dir
  | _ =>
      match file_at files path with
      | Some text => Some (File text)
      | None =>
          if existsb (fun d => above path (names d)) dirs
             || existsb (fun f => above path (names (fst f))) files
          then Some Dir else None
      end
  end.

(** One name of a path; the place is held with its last name first. *)
Definition enter (place : list string) (name : string) : list string :=
  if String.eqb name "" || String.eqb name "." then place
  else if String.eqb name ".." then tl place
  else name :: place.

Fixpoint walk (files : list (string * string)) (dirs : list string)
         (todo : list string) (place : list string) : option (list string) :=
  match todo with
  | [] => Some place
  | name :: rest =>
      match node_at files dirs (rev place) with
      | Some Dir => walk files dirs rest (enter place name)
      | _ => None
      end
  end.

(** What a path names for a process in [cwd], if anything. *)
Definition stat (cwd : string) (files : list (string * string))
           (dirs : list string) (p : string) : option node :=
  if String.eqb p "" then None
  else
    let todo :=
      if Path.starts_with_slash p then JsString.split JsString.slash p
      else JsString.split JsString.slash cwd ++ JsString.split JsString.slash p in
    match walk files dirs todo [] with
    | Some place => node_at files dirs (rev place)
    | None => None
    end.


(** Node on this disk: [existsSync] is true of files and directories,
    [readFileSync] gives the text of a file and throws on a directory
    and on what does not exist. *)
Definition mounted (cwd : string) (files : list (string * string))
           (dirs : list string) : host :=
  {| process_cwd := cwd;
     fs_existsSync p :=
       match stat cwd files dirs p with
       | Some _ => true
       | None => false
       end;
     fs_readFileSync p :=
       match stat cwd files dirs p with
       | Some (File text) => Some text
       | _ => None
       end |}.

End Disk.

(** ** The module *)

Module Url.

Definition THUMB : string := "thumb".
Definition MEDIUM : string := "medium".
Definition FULL : string := "full".
Definition ITEM : string := "item".
Definition VILLAGER : string := "villager".

(** Length of hash key in filenames. *)
Definition HASH_LENGTH : nat := 7.

(** The names every plain object inherits from [Object.prototype]; each
    reads as a function or an object. *)
Definition object_prototype_names : list string :=
  [ "constructor"; "__defineGetter__"; "__defineSetter__"; "hasOwnProperty";
    "__lookupGetter__"; "__lookupSetter__"; "isPrototypeOf";
    "propertyIsEnumerable"; "toString"; "valueOf"; "__proto__";
    "toLocaleString" ].

(** [staticCache[key]]: the own property, else the inherited one, else
    undefined. *)
Definition get_property (own : gmap string prim) (key : string) : value :=
  match own !! key with
  | Some p => Prim p
  | None =>
      if existsb (String.eqb key) object_prototype_names then Builtin key
      else Prim VUndefined
  end.

(** [staticCache[key] = p]: an own property is created or overwritten;
    the inherited setter of [__proto__] ignores a primitive. *)
Definition set_property (own : gmap string prim) (key : string) (p : prim)
  : gmap string prim :=
  if String.eqb key "__proto__" then own else <[key := p]> own.

Definition cache_get (key : string) : M value :=
  fun st => (Return (get_property (staticCache st) key), st).

Definition cache_set (key : string) (p : prim) : M unit :=
  fun st => (Return tt, State (set_property (staticCache st) key p) (fs_calls st)).

(** The path for an image that can't be found. *)
Definition getImageNotFoundFilename (size : string) : string :=
  ("/images/image-not-available-" +:+ size) +:+ ".svg".

(** Insert hash string into the last segment of URL before file
    extension.  [newFileParts] holds the segments pushed so far. *)
Definition addHashToUrl (inputUrl : string) (hash : prim) : string :=
  let fileParts := JsString.split JsString.dot inputUrl in
  let newFileParts :=
    fold_left (fun parts i => parts ++ [Js.index fileParts i])
              (seq 0 (List.length fileParts - 1)) [] in
  let newFileParts := newFileParts ++ [hash] in
  let newFileParts :=
    newFileParts ++ [Js.index fileParts (List.length fileParts - 1)] in
  JsString.join "." (map Js.join_item newFileParts).

(** The record [getEntityImageData] returns. *)
Record image_data : Type := ImageData {
  thumb : prim;
  medium : prim;
  full : prim
}.

Section WithHost.

Context (h : host).

Definition existsSync (p : string) : M bool :=
  log_call (ExistsSync p);;
  mret (fs_existsSync h p).

Definition readFileSync (p : string) : M string :=
  log_call (ReadFileSync p);;
  match fs_readFileSync h p with
  | Some text => mret text
  | None => mthrow "readFileSync"
  end.

(** Create the URL suffix hash for a file. *)
Definition createFileHash (filePath : string) : M prim :=
  found ← existsSync filePath;
  if (found : bool) then
    fileStr ← readFileSync filePath;
    mret (VString (JsString.substr0 HASH_LENGTH (Md5.hex fileStr)))
  else mret VUndefined.

(** [path.join(process.cwd(), 'public', url)]. *)
Definition public_path (url : string) : string :=
  Path.join [process_cwd h; "public"; url].

(** Return the requested image with ID for entity type and image
    type. *)
Definition getImageUrl (entityType imageType id variationId : prim) : M prim :=
  if Js.loose_eq_tag imageType THUMB || Js.loose_eq_tag imageType MEDIUM
     || Js.loose_eq_tag imageType FULL then
    let imageId :=
      if Js.truthy variationId
      then VString (Js.to_string id +:+ ("-vv-" +:+ Js.to_string variationId))
      else id in
    let pathPrefix :=
      (((("./public/images/" +:+ Js.to_string entityType) +:+ "s/") +:+ FULL)
         +:+ "/") +:+ Js.to_string imageId in
    let url (ext : string) : prim :=
      VString (((((("/images/" +:+ Js.to_string entityType) +:+ "s/")
                    +:+ Js.to_string imageType) +:+ "/")
                  +:+ Js.to_string imageId) +:+ ext) in
    png ← existsSync (pathPrefix +:+ ".png");
    if (png : bool) then mret (url ".png")
    else
      jpg ← existsSync (pathPrefix +:+ ".jpg");
      if (jpg : bool) then mret (url ".jpg")
      else
        jpeg ← existsSync (pathPrefix +:+ ".jpeg");
        if (jpeg : bool) then mret (url ".jpeg")
        else mret VUndefined
  else mret VUndefined.

(** Compute a static asset URL suitable for CDN use. *)
Definition computeStaticAssetUrl (inputUrl computedHash : prim) : M prim :=
  match inputUrl with
  | VString url =>
      hash ← (if Js.truthy computedHash then mret computedHash
              else createFileHash (public_path url));
      if Js.truthy hash then mret (VString (addHashToUrl url hash))
      else mret inputUrl
  | _ => mret VUndefined
  end.

(** Return the thumb, medium and full URL of images for an entity;
    [None] is the bare [return]. *)
Definition getEntityImageData
           (entityType id variationId usePlaceholderImage : prim)
  : M (option image_data) :=
  let usePlaceholderImage := Js.default_param (VBool true) usePlaceholderImage in
  url ← getImageUrl entityType (VString FULL) id variationId;
  if negb (Js.truthy url) then
    if Js.truthy usePlaceholderImage then
      mret (Some {| thumb := VString (getImageNotFoundFilename THUMB);
                    medium := VString (getImageNotFoundFilename MEDIUM);
                    full := VString (getImageNotFoundFilename FULL) |})
    else mret None
  else
    hash ← match url with
           | VString u => createFileHash (public_path u)
           | _ => mthrow "ERR_INVALID_ARG_TYPE"
           end;
    thumbUrl ← getImageUrl entityType (VString THUMB) id variationId;
    thumbData ← computeStaticAssetUrl thumbUrl hash;
    mediumUrl ← getImageUrl entityType (VString MEDIUM) id variationId;
    mediumData ← computeStaticAssetUrl mediumUrl hash;
    fullUrl ← getImageUrl entityType (VString FULL) id variationId;
    fullData ← computeStaticAssetUrl fullUrl hash;
    mret (Some {| thumb := thumbData; medium := mediumData; full := fullData |}).

(** Get the URL for a given entity. *)
Definition getEntityUrl (entityType id : prim) : string :=
  (("/" +:+ Js.to_string entityType) +:+ "/") +:+ Js.to_string id.

(** Get a static asset URL that is hashed for use by the CDN; results
    are cached in [staticCache]. *)
Definition getCacheBustedUrl (inputUrl : prim) : M value :=
  let key := Js.to_string inputUrl in
  cached ← cache_get key;
  if Js.truthy_value cached then cache_get key
  else
    computed ← computeStaticAssetUrl inputUrl VUndefined;
    cache_set key computed;;
    cache_get key.

End WithHost.

End Url.

(** ** The specification's words

    Definitions that follow the specification rather than the code, to be
    compared with the code's. *)

Module Spec.

(** Section 4.2: split on ".", re-join all segments except the last one,
    append the hash as a new segment, then the original last segment. *)
Definition spliced (url hash : string) : string :=
  let segments := JsString.split JsString.dot url in
  JsString.join "." (removelast segments)
    +:+ "." +:+ hash +:+ "." +:+ List.last segments "".

(** Section 4.3: [imageId] is [id], or [id-vv-variationId] if a variation
    id is supplied. *)
Definition image_id (id variationId : prim) : string :=
  if Js.truthy variationId
  then Js.to_string id +:+ "-vv-" +:+ Js.to_string variationId
  else Js.to_string id.

(** Section 6: [public/images/<entityType>s/<sizeVariant>/<imageId>.<ext>],
    the extension written with its dot. *)
Definition image_path (entityType size imageId ext : string) : string :=
  "public/images/" +:+ entityType +:+ "s/" +:+ size +:+ "/" +:+ imageId +:+ ext.

(** The URL of an image: the same, below the public root. *)
Definition image_url (entityType size imageId ext : string) : string :=
  "/images/" +:+ entityType +:+ "s/" +:+ size +:+ "/" +:+ imageId +:+ ext.

(** Tie-break order: PNG before JPG before JPEG. *)
Definition extensions : list string := [".png"; ".jpg"; ".jpeg"].

Definition sizes : list string := ["thumb"; "medium"; "full"].

(** The candidates probed for an image: the full-size files, one per
    extension, relative to the working directory. *)
Definition candidates (entityType imageId : string) : list string :=
  map (fun ext => "./" +:+ image_path entityType "full" imageId ext) extensions.

(** First match wins: the first extension whose candidate exists, and
    the candidates looked at on the way. *)
Fixpoint first_match (exist : string -> bool) (entityType imageId : string)
         (exts : list string) : option string * list string :=
  match exts with
  | [] => (None, [])
  | ext :: rest =>
      let candidate := "./" +:+ image_path entityType "full" imageId ext in
      if exist candidate then (Some ext, [candidate])
      else
        let '(found, probed) := first_match exist entityType imageId rest in
        (found, candidate :: probed)
  end.

(** Section 4.4: the fixed record of placeholder paths. *)
Definition placeholders : Url.image_data :=
  {| Url.thumb := VString "/images/image-not-available-thumb.svg";
     Url.medium := VString "/images/image-not-available-medium.svg";
     Url.full := VString "/images/image-not-available-full.svg" |}.

(** The files read, and so hashed, among some filesystem calls: every
    [readFileSync] of the module feeds one MD5 computation. *)
Fixpoint hashed (calls : list fs_call) : list string :=
  match calls with
  | [] => []
  | ReadFileSync p :: rest => p :: hashed rest
  | ExistsSync _ :: rest => hashed rest
  end.

(** Section 3: a short hash is the first 7 hex characters of the MD5
    digest of the file. *)
Definition asset_hash (text : string) : string :=
  JsString.substr0 7 (Md5.hex text).

(** Section 8, on [getCacheBustedUrl]: called twice with the same input it
    returns the identical result both times, the first call leaves that
    result in the cache under the input URL, having hashed at most one
    file, and the second call is a cache hit: it calls nothing and changes
    nothing. *)
Definition cached_by_first_call (h : host) (inputUrl : prim) (st : state) : Prop :=
  exists (result : prim) (cache : gmap string prim) (calls : list fs_call),
    let st1 := State cache (fs_calls st ++ calls) in
    Url.getCacheBustedUrl h inputUrl st = (Return (Prim result), st1)
    /\ Url.getCacheBustedUrl h inputUrl st1 = (Return (Prim result), st1)
    /\ cache !! Js.to_string inputUrl = Some result
    /\ List.length (hashed calls) <= 1.

(** [staticCache] is a plain object: [__proto__] is never an own
    property. *)
Definition plain_object (own : gmap string prim) : Prop :=
  own !! "__proto__" = None.

End Spec.

(** ** Sample hosts

    A checkout in [/srv/villagerdb] with a few files under [public]. *)

Module Samples.

Definition root : string := "/srv/villagerdb".

Definition dirs : list string :=
  map (fun d => root +:+ d)
      [""; "/public"; "/public/css"; "/public/images"; "/public/images/items";
       "/public/images/items/full"; "/public/images/items/thumb"].

Definition under_root (files : list (string * string)) : host :=
  Disk.mounted root (map (fun f => (root +:+ fst f, snd f)) files) dirs.

(** Item 5 has a PNG and a JPG. *)
Definition png_and_jpg : host :=
  under_root [("/public/images/items/full/5.png", "png of item 5");
              ("/public/images/items/full/5.jpg", "jpg of item 5")].

(** Item 5 has a JPEG only. *)
Definition only_jpeg : host :=
  under_root [("/public/images/items/full/5.jpeg", "jpeg of item 5")].

(** The same, with a stray PNG thumbnail. *)
Definition jpeg_and_stray_thumb : host :=
  under_root [("/public/images/items/full/5.jpeg", "jpeg of item 5");
              ("/public/images/items/thumb/5.png", "thumbnail")].

(** No image at all, and a stylesheet. *)
Definition stylesheet_only : host :=
  under_root [("/public/css/site.css", "body { color: red; }")].

(** Nothing at all, not even [public]. *)
Definition bare : host := Disk.mounted root [] [root].

Definition item : prim := VString Url.ITEM.
Definition five : prim := VNumber (SafeInteger 5 eq_refl).

(** The module freshly loaded. *)
Definition fresh : state := State ∅ [].

End Samples.

(** ** Notions used to state further properties *)

(** Every byte of [s] satisfies [P]. *)
Fixpoint string_forall (P : ascii -> bool) (s : string) : bool :=
  match s with
  | EmptyString => true
  | String c rest => P c && string_forall P rest
  end.

(** [0-9a-f]. *)
Definition is_lower_hex (c : ascii) : bool :=
  let n := nat_of_ascii c in
  (48 <=? n) && (n <=? 57) || (97 <=? n) && (n <=? 102).

(** The reverse of the splice: the segment before the last one is
    removed.  (A string of fewer than two segments loses nothing.) *)
Definition strip_hash (url : string) : string :=
  let segments := JsString.split JsString.dot url in
  JsString.join "." (removelast (removelast segments) ++ [List.last segments ""]).

(** The extension of a URL as [addHashToUrl] sees it: what follows the
    last "." of the whole string. *)
Definition last_segment (url : string) : string :=
  List.last (JsString.split JsString.dot url) "".

(** A computation that only looks at the filesystem: whatever it returns
    or throws, [staticCache] is as before and the calls made are added
    to the record. *)
Definition reads_only {A : Type} (m : M A) : Prop :=
  forall st : state, exists calls : list fs_call, snd (m st) = after_calls st calls.

(** What [getImageUrl] returns for a size, given the extension found. *)
Definition image_result (entityType size imageId : string) (found : option string)
  : prim :=
  match found with
  | Some ext => VString (Spec.image_url entityType size imageId ext)
  | None => VUndefined
  end.

(** Hosts for the edge cases. *)
Module EdgeSamples.

(** [full/5.png] is a directory, not a file. *)
Definition directory_as_image : host :=
  Disk.mounted Samples.root []
    (Samples.dirs ++ ["/srv/villagerdb/public/images/items/full/5.png"]).

(** Item 5 has the variation [red] only. *)
Definition variation_only : host :=
  Samples.under_root
    [("/public/images/items/full/5-vv-red.png", "red variation of item 5")].

End EdgeSamples.

(** What [getCacheBustedUrl] stores under a key: undefined, the key
    itself, or the key with seven hex characters spliced in. *)
Definition cache_entry (key : string) (p : prim) : Prop :=
  p = VUndefined
  \/ p = VString key
  \/ exists hash : string,
       String.length hash = 7
       /\ string_forall is_lower_hex hash = true
       /\ p = VString (Url.addHashToUrl key (VString hash)).

Definition cache_entries (own : gmap string prim) : Prop :=
  forall key p, own !! key = Some p -> cache_entry key p.

(** A process: calls of [getCacheBustedUrl] one after the other, each with
    the filesystem as it is at that time.  The state after them, whether
    they return or throw. *)
Fixpoint after_requests (requests : list (host * prim)) (st : state) : state :=
  match requests with
  | [] => st
  | (h, inputUrl) :: rest =>
      after_requests rest (snd (Url.getCacheBustedUrl h inputUrl st))
  end.

(** * Properties *)

(** ** The models of Node's library on known values *)

Example md5_empty : Md5.hex "" = "d41d8cd98f00b204e9800998ecf8427e".
Proof. vm_compute. reflexivity. Qed.

Example md5_abc : Md5.hex "abc" = "900150983cd24fb0d6963f7d28e17f72".
Proof. vm_compute. reflexivity. Qed.

Example md5_two_blocks :
  Md5.hex "aaaaaaaaaaaaaaaaaaaaaaaaaaaaaaaaaaaaaaaaaaaaaaaaaaaaaaaaaaaaaaaa"
  = "014842d480b571495a4a0363793f7367".
Proof. vm_compute. reflexivity. Qed.

Example path_join_public :
  Path.join ["/srv/villagerdb"; "public"; "/css/site.css"]
  = "/srv/villagerdb/public/css/site.css".
Proof. vm_compute. reflexivity. Qed.

Example path_join_normalizes :
  Path.join ["/srv/villagerdb"; "public"; "/images/../css//./site.css"]
  = "/srv/villagerdb/public/css/site.css".
Proof. vm_compute. reflexivity. Qed.

Example split_examples :
  JsString.split JsString.dot "a/b/name.ext" = ["a/b/name"; "ext"]
  /\ JsString.split JsString.dot "" = [""]
  /\ JsString.split JsString.dot ".a." = [""; "a"; ""].
Proof. repeat split. Qed.

Example getEntityUrl_item_42 :
  Url.getEntityUrl (VString "item") (VNumber (SafeInteger 42 eq_refl)) = "/item/42".
Proof. vm_compute. reflexivity. Qed.

(** ** Splitting and joining *)

Lemma append_cons (x : ascii) (a b : string) :
  String x a +:+ b = String x (a +:+ b).
Proof. reflexivity. Qed.

Lemma append_empty_l (b : string) : "" +:+ b = b.
Proof. reflexivity. Qed.

Lemma append_assoc (a b c : string) : (a +:+ b) +:+ c = a +:+ (b +:+ c).
Proof.
  induction a as [|x a IH]; [reflexivity|].
  rewrite !append_cons. now rewrite IH.
Qed.

Lemma append_empty_r (a : string) : a +:+ "" = a.
Proof.
  induction a as [|x a IH]; [reflexivity|].
  rewrite append_cons. now rewrite IH.
Qed.

Lemma length_append (a b : string) :
  String.length (a +:+ b) = String.length a + String.length b.
Proof.
  induction a as [|x a IH]; [reflexivity|].
  rewrite append_cons. simpl. now rewrite IH.
Qed.

Section Strings.

Import JsString.

Variable sep : ascii.

Lemma split_not_nil (s : string) : split sep s <> [].
Proof.
  induction s as [|c s IH]; simpl; [congruence|].
  destruct (Ascii.eqb c sep); [congruence|].
  destruct (split sep s); congruence.
Qed.

Lemma split_app_sep (p x : string) :
  split sep (p +:+ String sep x) = split sep p ++ split sep x.
Proof.
  induction p as [|c p IH]; [rewrite append_empty_l|rewrite append_cons]; simpl.
  - now rewrite Ascii.eqb_refl.
  - destruct (Ascii.eqb c sep); [now rewrite IH|].
    rewrite IH. pose proof (split_not_nil p) as Hp.
    destruct (split sep p); [congruence|reflexivity].
Qed.

Lemma split_without_sep (x : string) :
  contains sep x = false -> split sep x = [x].
Proof.
  induction x as [|c x IH]; simpl; [reflexivity|].
  intros H. apply orb_false_iff in H as [Hc Hx].
  rewrite Hc, (IH Hx). reflexivity.
Qed.

Lemma join_cons_char (c : ascii) (seg : string) (segs : list string) (j : string) :
  join j (String c seg :: segs) = String c (join j (seg :: segs)).
Proof. destruct segs; reflexivity. Qed.

Lemma join_split (s : string) : join (String sep "") (split sep s) = s.
Proof.
  induction s as [|c s IH]; simpl; [reflexivity|].
  pose proof (split_not_nil s) as Hs.
  destruct (Ascii.eqb c sep) eqn:Hc.
  - apply Ascii.eqb_eq in Hc. subst c.
    destruct (split sep s) as [|seg segs] eqn:E; [congruence|].
    change (join (String sep "") ("" :: seg :: segs))
      with ("" +:+ String sep "" +:+ join (String sep "") (seg :: segs)).
    now rewrite IH.
  - destruct (split sep s) as [|seg segs] eqn:E; [congruence|].
    rewrite join_cons_char. now rewrite IH.
Qed.

Lemma join_snoc (j x : string) (l : list string) :
  l <> [] -> join j (l ++ [x]) = join j l +:+ j +:+ x.
Proof.
  induction l as [|a l IH]; [congruence|]. intros _.
  destruct l as [|b l]; [reflexivity|].
  change (join j ((a :: b :: l) ++ [x]))
    with (a +:+ j +:+ join j ((b :: l) ++ [x])).
  rewrite IH by congruence.
  change (join j (a :: b :: l)) with (a +:+ j +:+ join j (b :: l)).
  now rewrite !append_assoc.
Qed.

(** A string in which the separator occurs is cut at its last
    occurrence. *)
Lemma cut_at_last (u : string) :
  contains sep u = true ->
  exists p x, u = p +:+ String sep x /\ contains sep x = false.
Proof.
  induction u as [|c u IH]; simpl; [discriminate|].
  intros H. destruct (contains sep u) eqn:Hu.
  - destruct (IH eq_refl) as (p & x & -> & Hx).
    exists (String c p), x. split; [reflexivity|exact Hx].
  - rewrite orb_false_r in H. apply Ascii.eqb_eq in H. subst c.
    exists "", u. split; [reflexivity|exact Hu].
Qed.

End Strings.

(** ** [addHashToUrl] *)

Section AddHashToUrl.

Import JsString Url.

(** The loop pushes the segments before index [n], in order. *)
Lemma push_loop (fileParts : list string) (n : nat) (pushed : list prim) :
  n <= List.length fileParts ->
  fold_left (fun parts i => parts ++ [Js.index fileParts i]) (seq 0 n) pushed
  = pushed ++ map VString (take n fileParts).
Proof.
  induction n as [|n IH]; intros Hn.
  - simpl. now rewrite app_nil_r.
  - rewrite seq_S, fold_left_app, IH by lia. simpl.
    destruct (lookup_lt_is_Some_2 fileParts n ltac:(lia)) as [seg Hseg].
    unfold Js.index. rewrite Hseg, (take_S_r _ _ _ Hseg), map_app.
    now rewrite <- app_assoc.
Qed.

(** The array that is joined: the segments but the last, the hash, the
    last segment. *)
Lemma spliced_array (init : list string) (ext : string) (hash : prim) :
  let fileParts := init ++ [ext] in
  (fold_left (fun parts i => parts ++ [Js.index fileParts i])
             (seq 0 (List.length fileParts - 1)) [] ++ [hash])
    ++ [Js.index fileParts (List.length fileParts - 1)]
  = map VString init ++ [hash; VString ext].
Proof.
  intros fileParts.
  assert (Hlen : List.length fileParts - 1 = List.length init).
  { unfold fileParts. rewrite length_app. simpl. lia. }
  rewrite Hlen, push_loop by lia.
  unfold fileParts at 1. rewrite take_app_length. simpl app at 1.
  unfold Js.index, fileParts.
  rewrite lookup_app_r, Nat.sub_diag by lia. simpl.
  now rewrite <- app_assoc.
Qed.

Lemma addHashToUrl_segments (inputUrl : string) (hash : prim) :
  let fileParts := split dot inputUrl in
  addHashToUrl inputUrl hash
  = join "." (removelast fileParts ++ [Js.join_item hash; List.last fileParts ""]).
Proof.
  intros fileParts. unfold addHashToUrl. fold fileParts.
  pose proof (split_not_nil dot inputUrl) as Hne. fold fileParts in Hne.
  pose proof (app_removelast_last "" Hne) as E.
  set (init := removelast fileParts) in *.
  set (ext := List.last fileParts "") in *.
  rewrite E, spliced_array.
  rewrite map_app, map_map. simpl. now rewrite map_id.
Qed.

Lemma addHashToUrl_at_last_dot (p x hash : string) :
  contains dot x = false ->
  addHashToUrl (p +:+ String dot x) (VString hash)
  = p +:+ "." +:+ hash +:+ "." +:+ x.
Proof.
  intros Hx. rewrite addHashToUrl_segments. cbv zeta.
  rewrite split_app_sep, (split_without_sep _ _ Hx).
  rewrite removelast_last, last_last. simpl Js.join_item.
  change [hash; x] with ([hash] ++ [x]). rewrite app_assoc.
  rewrite !join_snoc.
  - change "." with (String dot ""). rewrite join_split.
    now rewrite !append_assoc.
  - apply split_not_nil.
  - intros E. apply app_eq_nil in E as [_ E]. discriminate.
Qed.

Lemma addHashToUrl_without_dot (u hash : string) :
  contains dot u = false ->
  addHashToUrl u (VString hash) = hash +:+ "." +:+ u.
Proof.
  intros Hu. rewrite addHashToUrl_segments. cbv zeta.
  rewrite (split_without_sep _ _ Hu). reflexivity.
Qed.

End AddHashToUrl.

Section AddHashToUrlClaims.

Import JsString Url.

Lemma addHashToUrl_length (u hash : string) :
  String.length (addHashToUrl u (VString hash))
  = String.length u + String.length hash + 1.
Proof.
  destruct (contains dot u) eqn:Hu.
  - destruct (cut_at_last dot u Hu) as (p & x & -> & Hx).
    rewrite addHashToUrl_at_last_dot by exact Hx.
    rewrite !length_append. simpl. lia.
  - rewrite addHashToUrl_without_dot by exact Hu.
    rewrite !length_append. simpl. lia.
Qed.

(** C4.  For a URL with at least one "." the result of [addHashToUrl] is
    the string the specification describes: the segments but the last
    re-joined with ".", then the hash as a new segment, then the last
    segment.  (It holds for the empty hash as well.) *)
Theorem addHashToUrl_follows_spec (u h : string) :
  contains dot u = true ->
  addHashToUrl u (VString h) = Spec.spliced u h.
Proof.
  intros Hu. destruct (cut_at_last dot u Hu) as (p & x & -> & Hx).
  rewrite addHashToUrl_at_last_dot by exact Hx.
  unfold Spec.spliced. cbv zeta.
  rewrite split_app_sep, (split_without_sep _ _ Hx).
  rewrite removelast_last, last_last.
  change "." with (String dot "") at 3. now rewrite join_split.
Qed.

Lemma addHashToUrl_follows_spec_witness :
  contains dot "a/b/name.ext" = true
  /\ addHashToUrl "a/b/name.ext" (VString "h1234ab") = "a/b/name.h1234ab.ext".
Proof.
  split; [reflexivity|].
  rewrite (addHashToUrl_follows_spec "a/b/name.ext" "h1234ab" eq_refl).
  reflexivity.
Defined.

(** C10.  On a string without any "." the hash becomes the first segment
    and the whole input the last one: the result is [h + "." + u], and
    splitting it gives the segments of the hash followed by [u]. *)
Theorem addHashToUrl_no_dot (u h : string) :
  contains dot u = false ->
  addHashToUrl u (VString h) = h +:+ "." +:+ u
  /\ split dot (addHashToUrl u (VString h)) = split dot h ++ [u].
Proof.
  intros Hu. rewrite addHashToUrl_without_dot by exact Hu. split; [reflexivity|].
  change ("." +:+ u) with (String dot u).
  now rewrite split_app_sep, (split_without_sep _ _ Hu).
Qed.

Lemma addHashToUrl_no_dot_witness :
  contains dot "Makefile" = false
  /\ addHashToUrl "Makefile" (VString "h1234ab") = "h1234ab.Makefile"
  /\ split dot (addHashToUrl "Makefile" (VString "h1234ab")) = ["h1234ab"; "Makefile"].
Proof.
  split; [reflexivity|].
  exact (addHashToUrl_no_dot "Makefile" "h1234ab" eq_refl).
Defined.

(** C3, as the code has it.  [addHashToUrl] is not idempotent, with the
    same hash or with another: applied twice it yields the segments of
    [u] but the last, then both hash segments, then the last segment of
    [u]; the result is longer than after one application, so it never
    equals it. *)
Theorem addHashToUrl_reapplied (u h1 h2 : string) :
  let segments := split dot u in
  addHashToUrl (addHashToUrl u (VString h1)) (VString h2)
  = join "." (removelast segments ++ [h1; h2; List.last segments ""])
  /\ addHashToUrl (addHashToUrl u (VString h1)) (VString h2)
     <> addHashToUrl u (VString h1).
Proof.
  intros segments. split.
  - subst segments. destruct (contains dot u) eqn:Hu.
    + destruct (cut_at_last dot u Hu) as (p & x & -> & Hx).
      rewrite (addHashToUrl_at_last_dot p x h1 Hx).
      replace (p +:+ "." +:+ h1 +:+ "." +:+ x)
        with ((p +:+ "." +:+ h1) +:+ String dot x)
        by now rewrite !append_assoc.
      rewrite addHashToUrl_at_last_dot by exact Hx.
      rewrite split_app_sep, (split_without_sep _ _ Hx).
      rewrite removelast_last, last_last.
      change [h1; h2; x] with ([h1] ++ [h2] ++ [x]).
      rewrite !app_assoc, !join_snoc.
      * change "." with (String dot "") at 4. rewrite join_split.
        now rewrite !append_assoc.
      * apply split_not_nil.
      * intros E. apply app_eq_nil in E as [_ E]. discriminate.
      * intros E. apply app_eq_nil in E as [_ E]. discriminate.
    + rewrite (addHashToUrl_without_dot u h1 Hu).
      change (h1 +:+ "." +:+ u) with (h1 +:+ String dot u).
      rewrite addHashToUrl_at_last_dot by exact Hu.
      now rewrite (split_without_sep _ _ Hu).
  - intros E. apply (f_equal String.length) in E.
    rewrite addHashToUrl_length in E. lia.
Qed.

(** C3, as the specification has it, fails: re-applying the same hash
    adds a second hash segment. *)
Lemma addHashToUrl_not_idempotent :
  contains dot "a.ext" = true
  /\ addHashToUrl "a.ext" (VString "h") = "a.h.ext"
  /\ addHashToUrl (addHashToUrl "a.ext" (VString "h")) (VString "h") = "a.h.h.ext"
  /\ ~ (forall u h, contains dot u = true ->
          addHashToUrl (addHashToUrl u (VString h)) (VString h)
          = addHashToUrl u (VString h)).
Proof.
  split; [reflexivity|]. split; [reflexivity|]. split; [reflexivity|].
  intros H. specialize (H "a.ext" "h" eq_refl). vm_compute in H. discriminate.
Qed.

End AddHashToUrlClaims.

(** ** Running the module *)

Lemma after_no_calls (st : state) : after_calls st [] = st.
Proof. destruct st. unfold after_calls. simpl. now rewrite app_nil_r. Qed.

Lemma after_calls_app (st : state) (c1 c2 : list fs_call) :
  after_calls (after_calls st c1) c2 = after_calls st (c1 ++ c2).
Proof. unfold after_calls. simpl. now rewrite app_assoc. Qed.

Ltac run_M :=
  unfold mbind, M_bind, mret, M_ret, mthrow, M_throw, log_call; simpl.

Section Running.

Import Url.

Context (h : host).

Lemma existsSync_run (p : string) (st : state) :
  existsSync h p st = (Return (fs_existsSync h p), after_calls st [ExistsSync p]).
Proof. reflexivity. Qed.

Lemma readFileSync_run (p : string) (st : state) :
  readFileSync h p st
  = (match fs_readFileSync h p with
     | Some text => Return text
     | None => Throw "readFileSync"
     end, after_calls st [ReadFileSync p]).
Proof.
  unfold readFileSync. run_M. now destruct (fs_readFileSync h p).
Qed.

Lemma bind_run {A B} (m : M A) (k : A -> M B) (st st' : state) (a : A) :
  m st = (Return a, st') -> (m ≫= k) st = k a st'.
Proof. intros E. unfold mbind, M_bind. now rewrite E. Qed.

Lemma bind_throw {A B} (m : M A) (k : A -> M B) (st st' : state) (e : string) :
  m st = (Throw e, st') -> (m ≫= k) st = (Throw e, st').
Proof. intros E. unfold mbind, M_bind. now rewrite E. Qed.

(** The result of [createFileHash], by what is at the path. *)
Lemma createFileHash_run (p : string) (st : state) :
  createFileHash h p st
  = if fs_existsSync h p then
      match fs_readFileSync h p with
      | Some text =>
          (Return (VString (JsString.substr0 HASH_LENGTH (Md5.hex text))),
           after_calls st [ExistsSync p; ReadFileSync p])
      | None => (Throw "readFileSync", after_calls st [ExistsSync p; ReadFileSync p])
      end
    else (Return VUndefined, after_calls st [ExistsSync p]).
Proof.
  unfold createFileHash.
  rewrite (bind_run _ _ _ _ _ (existsSync_run p st)).
  destruct (fs_existsSync h p); [|reflexivity].
  unfold mbind, M_bind. rewrite readFileSync_run.
  destruct (fs_readFileSync h p); now rewrite ?after_calls_app.
Qed.

End Running.

(** ** The hash is seven characters *)

Section HashLength.

Lemma hex_word_length (w : Z) : String.length (Md5.hex_word w) = 8.
Proof. reflexivity. Qed.

Lemma md5_hex_length (s : string) : String.length (Md5.hex s) = 32.
Proof.
  unfold Md5.hex. destruct (Md5.digest s) as [a b c d].
  now rewrite !length_append, !hex_word_length.
Qed.

Lemma substr0_length (n : nat) (s : string) :
  String.length (JsString.substr0 n s) = Nat.min n (String.length s).
Proof.
  unfold JsString.substr0. revert s.
  induction n as [|n IH]; intros [|c s]; simpl; try reflexivity.
  now rewrite IH.
Qed.

Lemma file_hash_length (text : string) :
  String.length (JsString.substr0 Url.HASH_LENGTH (Md5.hex text)) = 7.
Proof. rewrite substr0_length, md5_hex_length. reflexivity. Qed.

Lemma file_hash_truthy (text : string) :
  Js.truthy (VString (JsString.substr0 Url.HASH_LENGTH (Md5.hex text))) = true.
Proof.
  pose proof (file_hash_length text) as H. simpl.
  destruct (JsString.substr0 Url.HASH_LENGTH (Md5.hex text)); [discriminate|reflexivity].
Qed.

End HashLength.

(** ** [getImageUrl] *)

Section GetImageUrl.

Import Url.

Context (h : host).

Lemma image_id_to_string (id variationId : prim) :
  Js.to_string
    (if Js.truthy variationId
     then VString (Js.to_string id +:+ ("-vv-" +:+ Js.to_string variationId))
     else id)
  = Spec.image_id id variationId.
Proof. unfold Spec.image_id. now destruct (Js.truthy variationId). Qed.

Lemma recognised_size (size : string) :
  In size Spec.sizes ->
  Js.loose_eq_tag (VString size) THUMB || Js.loose_eq_tag (VString size) MEDIUM
    || Js.loose_eq_tag (VString size) FULL = true.
Proof. intros [<-|[<-|[<-|[]]]]; reflexivity. Qed.

(** What [getImageUrl] does for a recognised size: it looks at the
    full-size candidates in order and stops at the first that exists. *)
Lemma getImageUrl_run (entityType id variationId : prim) (size : string)
      (st : state) :
  In size Spec.sizes ->
  let et := Js.to_string entityType in
  let imageId := Spec.image_id id variationId in
  getImageUrl h entityType (VString size) id variationId st
  = (let '(found, probed) :=
       Spec.first_match (fs_existsSync h) et imageId Spec.extensions in
     (Return (match found with
              | Some ext => VString (Spec.image_url et size imageId ext)
              | None => VUndefined
              end),
      after_calls st (map ExistsSync probed))).
Proof.
  intros Hsize et imageId. unfold getImageUrl.
  rewrite (recognised_size size Hsize), image_id_to_string.
  fold et imageId. simpl Js.to_string.
  unfold Spec.first_match, Spec.extensions, Spec.image_path, Spec.image_url.
  rewrite !append_assoc.
  unfold mbind, M_bind. rewrite existsSync_run.
  destruct (fs_existsSync h _); [reflexivity|].
  rewrite existsSync_run.
  destruct (fs_existsSync h _); [now rewrite after_calls_app|].
  rewrite existsSync_run.
  destruct (fs_existsSync h _); now rewrite !after_calls_app.
Qed.

End GetImageUrl.

Section FirstMatch.

Variables (exist : string -> bool) (entityType imageId : string).

Let candidate (ext : string) : string :=
  "./" +:+ Spec.image_path entityType "full" imageId ext.

Lemma first_match_probed (exts : list string) :
  incl (snd (Spec.first_match exist entityType imageId exts)) (map candidate exts).
Proof.
  induction exts as [|ext exts IH]; simpl; [easy|].
  fold (candidate ext). destruct (exist (candidate ext)); simpl.
  - intros c [<-|[]]. now left.
  - destruct (Spec.first_match exist entityType imageId exts) as [found probed].
    simpl in *. intros c [<-|Hc]; [now left|right; now apply IH].
Qed.

Lemma first_match_found (exts : list string) (ext : string) :
  fst (Spec.first_match exist entityType imageId exts) = Some ext ->
  In ext exts /\ exist (candidate ext) = true.
Proof.
  induction exts as [|e exts IH]; simpl; [discriminate|].
  fold (candidate e). destruct (exist (candidate e)) eqn:He; simpl.
  - intros [= <-]. now split; [left|].
  - destruct (Spec.first_match exist entityType imageId exts) as [found probed].
    simpl in *. intros Hf. destruct (IH Hf). now split; [right|].
Qed.

Lemma first_match_none (exts : list string) :
  fst (Spec.first_match exist entityType imageId exts) = None ->
  forall ext, In ext exts -> exist (candidate ext) = false.
Proof.
  induction exts as [|e exts IH]; simpl; [easy|].
  fold (candidate e). destruct (exist (candidate e)) eqn:He; simpl; [discriminate|].
  destruct (Spec.first_match exist entityType imageId exts) as [found probed].
  simpl in *. intros Hf ext [<-|Hin]; [exact He|now apply IH].
Qed.

End FirstMatch.

(** Only the candidates matter to [first_match]. *)
Lemma first_match_agree (exist exist' : string -> bool) (entityType imageId : string)
      (exts : list string) :
  (forall ext, In ext exts ->
     exist' ("./" +:+ Spec.image_path entityType "full" imageId ext)
     = exist ("./" +:+ Spec.image_path entityType "full" imageId ext)) ->
  Spec.first_match exist' entityType imageId exts
  = Spec.first_match exist entityType imageId exts.
Proof.
  induction exts as [|e exts IH]; intros Hag; simpl; [reflexivity|].
  rewrite (Hag e) by now left.
  rewrite IH; [reflexivity|]. intros ext Hin. apply Hag. now right.
Qed.

Section GetImageUrlClaims.

Import Url.

(** C1.  For a size among thumb, medium and full, [getImageUrl] returns
    without an exception, touches the filesystem only by [existsSync] on
    candidates in the full-size directory,
    [./public/images/<entityType>s/full/<imageId><ext>], and never on the
    thumb or medium directory; the result is undefined when no candidate
    exists and otherwise the URL of the requested size with an extension
    whose full-size file exists; and a host that agrees on the three
    full-size candidates gives the same result, whatever its other
    files. *)
Theorem getImageUrl_checks_full_only
        (h : host) (entityType id variationId : prim) (size : string) (st : state) :
  In size Spec.sizes ->
  let et := Js.to_string entityType in
  let imageId := Spec.image_id id variationId in
  exists (result : prim) (probed : list string),
    getImageUrl h entityType (VString size) id variationId st
    = (Return result, after_calls st (map ExistsSync probed))
    /\ incl probed (Spec.candidates et imageId)
    /\ ((result = VUndefined
         /\ forall c, In c (Spec.candidates et imageId) -> fs_existsSync h c = false)
        \/ exists ext, In ext Spec.extensions
             /\ fs_existsSync h ("./" +:+ Spec.image_path et "full" imageId ext) = true
             /\ result = VString (Spec.image_url et size imageId ext))
    /\ forall h' : host,
         (forall c, In c (Spec.candidates et imageId) ->
            fs_existsSync h' c = fs_existsSync h c) ->
         fst (getImageUrl h' entityType (VString size) id variationId st)
         = Return result.
Proof.
  intros Hsize et imageId.
  pose proof (getImageUrl_run h entityType id variationId size st Hsize) as Hrun.
  cbv zeta in Hrun. fold et imageId in Hrun.
  pose proof (first_match_probed (fs_existsSync h) et imageId Spec.extensions) as Hprobed.
  pose proof (first_match_found (fs_existsSync h) et imageId Spec.extensions) as Hfound.
  pose proof (first_match_none (fs_existsSync h) et imageId Spec.extensions) as Hnone.
  destruct (Spec.first_match (fs_existsSync h) et imageId Spec.extensions)
    as [found probed] eqn:Hfm.
  simpl in Hprobed, Hfound, Hnone.
  eexists _, probed. split; [exact Hrun|]. split; [exact Hprobed|]. split.
  - destruct found as [ext|].
    + right. exists ext. destruct (Hfound ext eq_refl). auto.
    + left. split; [reflexivity|]. intros c Hc.
      apply in_map_iff in Hc as (ext & <- & Hext). now apply Hnone.
  - intros h' Hagree.
    rewrite (getImageUrl_run h' entityType id variationId size st Hsize).
    cbv zeta. fold et imageId.
    rewrite (first_match_agree (fs_existsSync h) (fs_existsSync h')), Hfm; [reflexivity|].
    intros ext Hext. apply Hagree. unfold Spec.candidates.
    apply in_map_iff. now exists ext.
Qed.

(** The thumbnail of item 5 is decided by [full/5.jpeg]: the stray
    [thumb/5.png] is neither looked at nor changes the answer. *)
Lemma getImageUrl_checks_full_only_witness :
  In "thumb" Spec.sizes
  /\ fst (getImageUrl Samples.only_jpeg Samples.item (VString "thumb")
                      Samples.five VUndefined Samples.fresh)
     = Return (VString "/images/items/thumb/5.jpeg")
  /\ fst (getImageUrl Samples.jpeg_and_stray_thumb Samples.item (VString "thumb")
                      Samples.five VUndefined Samples.fresh)
     = Return (VString "/images/items/thumb/5.jpeg").
Proof.
  assert (Hsize : In "thumb" Spec.sizes) by (left; reflexivity).
  split; [exact Hsize|].
  destruct (getImageUrl_checks_full_only Samples.only_jpeg Samples.item
              Samples.five VUndefined "thumb" Samples.fresh Hsize)
    as (result & probed & Hrun & _ & _ & Hsame).
  assert (Hresult : Return result = Return (VString "/images/items/thumb/5.jpeg")).
  { pose proof (f_equal fst Hrun) as Hfst. cbn [fst] in Hfst.
    rewrite <- Hfst. vm_compute. reflexivity. }
  split; [vm_compute; reflexivity|].
  rewrite <- Hresult. apply Hsame.
  intros c [<-|[<-|[<-|[]]]]; vm_compute; reflexivity.
Defined.

(** C2.  The candidates are probed in the order [.png], [.jpg], [.jpeg]
    and the first that exists gives the extension of the URL: with the
    PNG present the URL ends in [.png] after one probe, whatever else
    exists; the JPG is used only without the PNG, the JPEG only without
    both; without any the result is undefined after three probes. *)
Theorem getImageUrl_extension_order
        (h : host) (entityType id variationId : prim) (size : string) (st : state) :
  In size Spec.sizes ->
  let et := Js.to_string entityType in
  let imageId := Spec.image_id id variationId in
  let candidate ext := "./" +:+ Spec.image_path et "full" imageId ext in
  let url ext := VString (Spec.image_url et size imageId ext) in
  let run := getImageUrl h entityType (VString size) id variationId st in
  (fs_existsSync h (candidate ".png") = true ->
     run = (Return (url ".png"),
            after_calls st [ExistsSync (candidate ".png")]))
  /\ (fs_existsSync h (candidate ".png") = false ->
      fs_existsSync h (candidate ".jpg") = true ->
        run = (Return (url ".jpg"),
               after_calls st [ExistsSync (candidate ".png");
                               ExistsSync (candidate ".jpg")]))
  /\ (fs_existsSync h (candidate ".png") = false ->
      fs_existsSync h (candidate ".jpg") = false ->
      fs_existsSync h (candidate ".jpeg") = true ->
        run = (Return (url ".jpeg"),
               after_calls st [ExistsSync (candidate ".png");
                               ExistsSync (candidate ".jpg");
                               ExistsSync (candidate ".jpeg")]))
  /\ (fs_existsSync h (candidate ".png") = false ->
      fs_existsSync h (candidate ".jpg") = false ->
      fs_existsSync h (candidate ".jpeg") = false ->
        run = (Return VUndefined,
               after_calls st [ExistsSync (candidate ".png");
                               ExistsSync (candidate ".jpg");
                               ExistsSync (candidate ".jpeg")])).
Proof.
  intros Hsize et imageId candidate url run. subst run.
  rewrite (getImageUrl_run h entityType id variationId size st Hsize).
  cbv zeta. fold et imageId. simpl Spec.first_match.
  fold (candidate ".png") (candidate ".jpg") (candidate ".jpeg").
  repeat split; intros; repeat
    match goal with
    | H : fs_existsSync h _ = _ |- _ => rewrite H; clear H
    end; reflexivity.
Qed.

(** With [5.png] and [5.jpg] the URL ends in [.png]; with only [5.jpeg]
    it ends in [.jpeg]. *)
Lemma getImageUrl_extension_order_witness :
  In "medium" Spec.sizes
  /\ fst (getImageUrl Samples.png_and_jpg Samples.item (VString "medium")
                      Samples.five VUndefined Samples.fresh)
     = Return (VString "/images/items/medium/5.png")
  /\ fst (getImageUrl Samples.only_jpeg Samples.item (VString "medium")
                      Samples.five VUndefined Samples.fresh)
     = Return (VString "/images/items/medium/5.jpeg").
Proof.
  assert (Hsize : In "medium" Spec.sizes) by (right; left; reflexivity).
  split; [exact Hsize|]. split.
  - destruct (getImageUrl_extension_order Samples.png_and_jpg Samples.item
                Samples.five VUndefined "medium" Samples.fresh Hsize)
      as (Hpng & _).
    rewrite Hpng by (vm_compute; reflexivity). reflexivity.
  - destruct (getImageUrl_extension_order Samples.only_jpeg Samples.item
                Samples.five VUndefined "medium" Samples.fresh Hsize)
      as (_ & _ & Hjpeg & _).
    rewrite Hjpeg by (vm_compute; reflexivity). reflexivity.
Defined.

(** C9.  For a size that is none of the strings thumb, medium and full,
    [getImageUrl] returns undefined and leaves the state as it is: no
    filesystem call is made, whatever files exist. *)
Theorem getImageUrl_unknown_size
        (h : host) (entityType imageType id variationId : prim) (st : state) :
  imageType <> VString THUMB ->
  imageType <> VString MEDIUM ->
  imageType <> VString FULL ->
  getImageUrl h entityType imageType id variationId st = (Return VUndefined, st).
Proof.
  intros Ht Hm Hf. unfold getImageUrl.
  assert (Hno : forall tag, imageType <> VString tag ->
                            Js.loose_eq_tag imageType tag = false).
  { intros tag Hne. destruct imageType; try reflexivity.
    simpl. apply String.eqb_neq. congruence. }
  now rewrite (Hno _ Ht), (Hno _ Hm), (Hno _ Hf).
Qed.

Lemma getImageUrl_unknown_size_witness :
  VString "huge" <> VString THUMB
  /\ VString "huge" <> VString MEDIUM
  /\ VString "huge" <> VString FULL
  /\ getImageUrl Samples.png_and_jpg Samples.item (VString "huge")
                 Samples.five VUndefined Samples.fresh
     = (Return VUndefined, Samples.fresh).
Proof.
  assert (Ht : VString "huge" <> VString THUMB) by discriminate.
  assert (Hm : VString "huge" <> VString MEDIUM) by discriminate.
  assert (Hf : VString "huge" <> VString FULL) by discriminate.
  split; [exact Ht|]. split; [exact Hm|]. split; [exact Hf|].
  exact (getImageUrl_unknown_size Samples.png_and_jpg Samples.item (VString "huge")
           Samples.five VUndefined Samples.fresh Ht Hm Hf).
Defined.

End GetImageUrlClaims.

(** ** [computeStaticAssetUrl] *)

Section ComputeStaticAssetUrl.

Import Url.

Context (h : host).

Lemma computeStaticAssetUrl_not_string (inputUrl computedHash : prim) (st : state) :
  Js.is_string inputUrl = false ->
  computeStaticAssetUrl h inputUrl computedHash st = (Return VUndefined, st).
Proof. now destruct inputUrl. Qed.

Lemma computeStaticAssetUrl_given (url : string) (computedHash : prim) (st : state) :
  Js.truthy computedHash = true ->
  computeStaticAssetUrl h (VString url) computedHash st
  = (Return (VString (addHashToUrl url computedHash)), st).
Proof.
  intros Hhash. unfold computeStaticAssetUrl. rewrite Hhash.
  unfold mbind, M_bind, mret, M_ret. now rewrite Hhash.
Qed.

Lemma computeStaticAssetUrl_computed (url : string) (computedHash : prim) (st : state) :
  Js.truthy computedHash = false ->
  let p := public_path h url in
  computeStaticAssetUrl h (VString url) computedHash st
  = if fs_existsSync h p then
      match fs_readFileSync h p with
      | Some text =>
          (Return (VString (addHashToUrl url (VString (Spec.asset_hash text)))),
           after_calls st [ExistsSync p; ReadFileSync p])
      | None => (Throw "readFileSync", after_calls st [ExistsSync p; ReadFileSync p])
      end
    else (Return (VString url), after_calls st [ExistsSync p]).
Proof.
  intros Hhash p. unfold computeStaticAssetUrl. rewrite Hhash.
  unfold mbind, M_bind. rewrite createFileHash_run. fold p.
  destruct (fs_existsSync h p); [|reflexivity].
  destruct (fs_readFileSync h p) as [text|]; [|reflexivity].
  now rewrite file_hash_truthy.
Qed.

End ComputeStaticAssetUrl.

Section ComputeStaticAssetUrlClaims.

Import Url.

(** C8, as the code has it.  [computeStaticAssetUrl] returns undefined for
    an input that is not a string, and the state is as before: no
    filesystem call.  For a string: with a provided (truthy) hash the
    result is the URL with that hash spliced in, again without a
    filesystem call; without one, when the file at
    [path.join(cwd, 'public', url)] exists and reads as [text], the result
    is the URL with the seven-character hash of [text] spliced in; when
    nothing exists there, the result is the input URL unchanged; and when
    the path exists and cannot be read, the error of [readFileSync]
    reaches the caller.  These are all the cases of a string input. *)
Theorem computeStaticAssetUrl_cases (h : host) (st : state) :
  (forall inputUrl computedHash,
     (forall url, inputUrl <> VString url) ->
     computeStaticAssetUrl h inputUrl computedHash st = (Return VUndefined, st))
  /\ (forall url computedHash,
        Js.truthy computedHash = true ->
        computeStaticAssetUrl h (VString url) computedHash st
        = (Return (VString (addHashToUrl url computedHash)), st))
  /\ (forall url computedHash text,
        Js.truthy computedHash = false ->
        fs_existsSync h (public_path h url) = true ->
        fs_readFileSync h (public_path h url) = Some text ->
        computeStaticAssetUrl h (VString url) computedHash st
        = (Return (VString (addHashToUrl url (VString (Spec.asset_hash text)))),
           after_calls st [ExistsSync (public_path h url);
                           ReadFileSync (public_path h url)]))
  /\ (forall url computedHash,
        Js.truthy computedHash = false ->
        fs_existsSync h (public_path h url) = false ->
        computeStaticAssetUrl h (VString url) computedHash st
        = (Return (VString url), after_calls st [ExistsSync (public_path h url)]))
  /\ (forall url computedHash,
        Js.truthy computedHash = false ->
        fs_existsSync h (public_path h url) = true ->
        fs_readFileSync h (public_path h url) = None ->
        computeStaticAssetUrl h (VString url) computedHash st
        = (Throw "readFileSync",
           after_calls st [ExistsSync (public_path h url);
                           ReadFileSync (public_path h url)])).
Proof.
  split; [|split; [|split; [|split]]].
  - intros inputUrl computedHash Hns. apply computeStaticAssetUrl_not_string.
    destruct inputUrl; try reflexivity. now destruct (Hns s).
  - intros url computedHash. apply computeStaticAssetUrl_given.
  - intros url computedHash text Hhash Hex Hread.
    rewrite computeStaticAssetUrl_computed by exact Hhash. cbv zeta.
    now rewrite Hex, Hread.
  - intros url computedHash Hhash Hex.
    rewrite computeStaticAssetUrl_computed by exact Hhash. cbv zeta.
    now rewrite Hex.
  - intros url computedHash Hhash Hex Hread.
    rewrite computeStaticAssetUrl_computed by exact Hhash. cbv zeta.
    now rewrite Hex, Hread.
Qed.

(** A number gives undefined; the stylesheet gets the provided hash, or
    its own; a missing stylesheet keeps its URL; the directory of the
    stylesheets throws. *)
Lemma computeStaticAssetUrl_cases_witness :
  computeStaticAssetUrl Samples.stylesheet_only Samples.five VUndefined Samples.fresh
  = (Return VUndefined, Samples.fresh)
  /\ computeStaticAssetUrl Samples.stylesheet_only (VString "/css/site.css")
                           (VString "h1234ab") Samples.fresh
     = (Return (VString "/css/site.h1234ab.css"), Samples.fresh)
  /\ fst (computeStaticAssetUrl Samples.stylesheet_only (VString "/css/site.css")
                                VUndefined Samples.fresh)
     = Return (VString "/css/site.f2b804d.css")
  /\ fst (computeStaticAssetUrl Samples.stylesheet_only (VString "/css/print.css")
                                VUndefined Samples.fresh)
     = Return (VString "/css/print.css")
  /\ fst (computeStaticAssetUrl Samples.stylesheet_only (VString "/css/")
                                VUndefined Samples.fresh)
     = Throw "readFileSync".
Proof.
  destruct (computeStaticAssetUrl_cases Samples.stylesheet_only Samples.fresh)
    as (Hnot & Hgiven & Hcomputed & Hmissing & Hthrow).
  split; [|split; [|split; [|split]]].
  - apply Hnot. discriminate.
  - rewrite Hgiven by reflexivity. reflexivity.
  - rewrite (Hcomputed "/css/site.css" VUndefined "body { color: red; }")
      by (vm_compute; reflexivity).
    vm_compute. reflexivity.
  - rewrite Hmissing by (vm_compute; reflexivity). reflexivity.
  - rewrite Hthrow by (vm_compute; reflexivity). reflexivity.
Defined.

(** C8, as the specification has it, fails on a URL that names a directory
    under [public]: the path exists, [readFileSync] throws on it, and the
    call neither returns the spliced URL nor the URL unchanged. *)
Lemma computeStaticAssetUrl_directory_throws :
  computeStaticAssetUrl Samples.stylesheet_only (VString "/css") VUndefined
                        Samples.fresh
  = (Throw "readFileSync",
     after_calls Samples.fresh
       [ExistsSync "/srv/villagerdb/public/css";
        ReadFileSync "/srv/villagerdb/public/css"])
  /\ ~ (forall (h : host) (url : string) (st : state),
          exists (result : string) (st' : state),
            computeStaticAssetUrl h (VString url) VUndefined st
            = (Return (VString result), st')
            /\ (result = url
                \/ exists hash : prim,
                     Js.truthy hash = true /\ result = addHashToUrl url hash)).
Proof.
  assert (Hrun : computeStaticAssetUrl Samples.stylesheet_only (VString "/css")
                   VUndefined Samples.fresh
                 = (Throw "readFileSync",
                    after_calls Samples.fresh
                      [ExistsSync "/srv/villagerdb/public/css";
                       ReadFileSync "/srv/villagerdb/public/css"]))
    by (vm_compute; reflexivity).
  split; [exact Hrun|].
  intros Hall.
  destruct (Hall Samples.stylesheet_only "/css" Samples.fresh)
    as (result & st' & Hreturn & _).
  rewrite Hrun in Hreturn. discriminate.
Qed.

End ComputeStaticAssetUrlClaims.

(** ** Paths on a mounted disk

    The probe of [getImageUrl] names the file relative to the working
    directory, [createFileHash] by [path.join] from the working directory;
    on a mounted disk both resolve to the same file. *)

Section PathLemmas.

Import JsString.

Lemma split_segments_free (sep : ascii) (s : string) :
  Forall (fun seg => contains sep seg = false) (split sep s).
Proof.
  induction s as [|c s IH]; simpl; [now repeat constructor|].
  destruct (Ascii.eqb c sep) eqn:Hc; [now constructor|].
  destruct (split sep s) as [|seg segs]; [now repeat constructor; simpl; rewrite Hc|].
  inversion IH; subst. constructor; [simpl; now rewrite Hc|assumption].
Qed.

Lemma split_join (sep : ascii) (segs : list string) :
  segs <> [] ->
  Forall (fun seg => contains sep seg = false) segs ->
  split sep (join (String sep "") segs) = segs.
Proof.
  induction segs as [|seg segs IH]; [congruence|]. intros _ Hfree.
  inversion Hfree as [|? ? Hseg Hsegs]; subst.
  destruct segs as [|seg' segs]; [now apply split_without_sep|].
  change (join (String sep "") (seg :: seg' :: segs))
    with (seg +:+ String sep "" +:+ join (String sep "") (seg' :: segs)).
  change (String sep "" +:+ join (String sep "") (seg' :: segs))
    with (String sep (join (String sep "") (seg' :: segs))).
  rewrite split_app_sep, (split_without_sep _ _ Hseg), IH by (congruence || assumption).
  reflexivity.
Qed.

Lemma push_clean (stack : list string) (seg : string) :
  clean_segment seg -> Path.push_segment false stack seg = seg :: stack.
Proof.
  intros (H1 & H2 & H3 & _). unfold Path.push_segment.
  apply String.eqb_neq in H1, H2, H3. now rewrite H1, H2, H3.
Qed.

Lemma push_keeps_clean (stack : list string) (seg : string) :
  Forall clean_segment stack -> contains slash seg = false ->
  Forall clean_segment (Path.push_segment false stack seg).
Proof.
  intros Hstack Hseg. unfold Path.push_segment.
  destruct (String.eqb_spec seg ""); [exact Hstack|].
  destruct (String.eqb_spec seg "."); [exact Hstack|]. simpl.
  destruct (String.eqb_spec seg "..").
  - destruct stack as [|top below]; [constructor|].
    inversion Hstack as [|? ? Htop Hbelow]; subst.
    destruct (String.eqb_spec top ".."); [|exact Hbelow].
    now destruct Htop as (_ & _ & Hne & _).
  - constructor; [now repeat split|exact Hstack].
Qed.

Lemma fold_keeps_clean (segs stack : list string) :
  Forall clean_segment stack ->
  Forall (fun seg => contains slash seg = false) segs ->
  Forall clean_segment (fold_left (Path.push_segment false) segs stack).
Proof.
  revert stack. induction segs as [|seg segs IH]; intros stack Hstack Hsegs; [exact Hstack|].
  inversion Hsegs; subst. simpl. apply IH; [now apply push_keeps_clean|assumption].
Qed.

Lemma fold_clean (segs stack : list string) :
  Forall clean_segment segs ->
  fold_left (Path.push_segment false) segs stack = rev segs ++ stack.
Proof.
  revert stack. induction segs as [|seg segs IH]; intros stack Hsegs; [reflexivity|].
  inversion Hsegs; subst. simpl. rewrite push_clean, IH by assumption.
  now rewrite <- app_assoc.
Qed.

Lemma normalized_segments_clean (p : string) :
  Forall clean_segment (Path.normalize_segments false (split slash p)).
Proof.
  unfold Path.normalize_segments. apply Forall_rev.
  apply fold_keeps_clean; [constructor|apply split_segments_free].
Qed.

Lemma ends_with_slash_app (a b : string) :
  b <> "" -> Path.ends_with_slash (a +:+ b) = Path.ends_with_slash b.
Proof.
  intros Hb. induction a as [|c a IH]; [reflexivity|].
  rewrite append_cons. simpl. rewrite IH.
  destruct (a +:+ b) eqn:E; [|reflexivity].
  destruct a; [now rewrite append_empty_l in E|discriminate].
Qed.

Lemma ends_with_slash_free (seg : string) :
  contains slash seg = false -> Path.ends_with_slash seg = false.
Proof.
  induction seg as [|c seg IH]; [reflexivity|]. simpl.
  intros H. apply orb_false_iff in H as [Hc Hseg].
  destruct seg; [exact Hc|now apply IH].
Qed.

Lemma join_clean (segs : list string) :
  segs <> [] -> Forall clean_segment segs ->
  join "/" segs <> "" /\ Path.ends_with_slash (join "/" segs) = false.
Proof.
  induction segs as [|seg segs IH]; [congruence|]. intros _ Hclean.
  inversion Hclean as [|? ? (Hne & _ & _ & Hfree) Hsegs]; subst.
  destruct segs as [|seg' segs].
  - split; [exact Hne|now apply ends_with_slash_free].
  - destruct IH as [IH1 IH2]; [congruence|assumption|].
    change (join "/" (seg :: seg' :: segs))
      with (seg +:+ "/" +:+ join "/" (seg' :: segs)).
    split.
    + destruct seg; [congruence|discriminate].
    + rewrite ends_with_slash_app by discriminate.
      change ("/" +:+ join "/" (seg' :: segs))
        with (String slash "" +:+ join "/" (seg' :: segs)).
      now rewrite ends_with_slash_app.
Qed.

End PathLemmas.

Section NormalizeAbsolute.

Import JsString.

Lemma starts_with_slash_cons (q : string) :
  Path.starts_with_slash q = true -> exists rest, q = String slash rest.
Proof.
  destruct q as [|c rest]; [discriminate|]. simpl. intros H.
  apply Ascii.eqb_eq in H. subst. now exists rest.
Qed.

(** [path.normalize] on an absolute path: the clean_segment segments, behind a
    slash. *)
Lemma normalize_absolute (q : string) :
  Path.starts_with_slash q = true ->
  Path.normalize q
  = Path.absolute (Path.normalize_segments false (split slash q))
                  (Path.ends_with_slash q).
Proof.
  intros Habs. destruct (starts_with_slash_cons q Habs) as [rest ->].
  unfold Path.normalize. rewrite Habs.
  change (String.eqb (String slash rest) "") with false. cbv iota. simpl negb.
  pose proof (normalized_segments_clean (String slash rest)) as Hclean.
  destruct (Path.normalize_segments false (split slash (String slash rest)))
    as [|seg segs] eqn:E; [reflexivity|].
  destruct (join_clean (seg :: segs)) as [Hne _]; [congruence|exact Hclean|].
  apply String.eqb_neq in Hne. rewrite Hne. unfold Path.absolute.
  destruct (Path.ends_with_slash (String slash rest)); cbv zeta iota;
    [reflexivity|now rewrite append_empty_r].
Qed.

Lemma normalize_segments_clean (segs : list string) :
  Forall clean_segment segs -> Path.normalize_segments false segs = segs.
Proof.
  intros Hclean. unfold Path.normalize_segments.
  rewrite fold_clean by exact Hclean. now rewrite app_nil_r, rev_involutive.
Qed.

Lemma normalize_segments_padded (segs : list string) :
  Forall clean_segment segs ->
  Path.normalize_segments false ("" :: segs ++ [""]) = segs
  /\ Path.normalize_segments false ("" :: segs) = segs.
Proof.
  intros Hclean. unfold Path.normalize_segments.
  change (fold_left (Path.push_segment false) ("" :: segs ++ [""]) [])
    with (fold_left (Path.push_segment false) (segs ++ [""]) []).
  change (fold_left (Path.push_segment false) ("" :: segs) [])
    with (fold_left (Path.push_segment false) segs []).
  rewrite fold_left_app, (fold_clean segs) by exact Hclean.
  rewrite !app_nil_r. cbn [fold_left]. unfold Path.push_segment at 1.
  cbn [String.eqb orb]. rewrite rev_involutive. now split.
Qed.

(** A normalized absolute path is a fixed point of [path.normalize]. *)
Lemma normalize_absolute_fixed (segs : list string) (trailing : bool) :
  Forall clean_segment segs ->
  Path.normalize (Path.absolute segs trailing) = Path.absolute segs trailing.
Proof.
  intros Hclean. destruct segs as [|seg segs]; [reflexivity|].
  set (body := join "/" (seg :: segs)).
  destruct (join_clean (seg :: segs)) as [Hne Hend]; [congruence|exact Hclean|].
  fold body in Hne, Hend.
  assert (Hfree : Forall (fun s => contains slash s = false) (seg :: segs)).
  { eapply Forall_impl; [exact Hclean|]. now intros s (_ & _ & _ & Hs). }
  rewrite normalize_absolute by reflexivity.
  change (Path.absolute (seg :: segs) trailing)
    with ("/" +:+ body +:+ (if trailing then "/" else "")).
  assert (Hsegs : Path.normalize_segments false
                    (split slash ("/" +:+ body +:+ (if trailing then "/" else "")))
                  = seg :: segs).
  { change ("/" +:+ body +:+ (if trailing then "/" else ""))
      with (String slash (body +:+ (if trailing then "/" else ""))).
    simpl split. unfold body. change "/" with (String slash "").
    destruct trailing.
    - rewrite split_app_sep, split_join by (congruence || exact Hfree).
      now apply normalize_segments_padded.
    - rewrite append_empty_r, split_join by (congruence || exact Hfree).
      now apply normalize_segments_padded. }
  rewrite Hsegs. unfold Path.absolute. fold body.
  f_equal. f_equal. destruct trailing.
  - replace ("/" +:+ body +:+ "/") with (("/" +:+ body) +:+ "/")
      by now rewrite append_assoc.
    now rewrite ends_with_slash_app by discriminate.
  - rewrite append_empty_r.
    change ("/" +:+ body) with (String slash "" +:+ body).
    now rewrite ends_with_slash_app, Hend by exact Hne.
Qed.

Lemma normalize_idempotent (q : string) :
  Path.starts_with_slash q = true ->
  Path.normalize (Path.normalize q) = Path.normalize q.
Proof.
  intros Habs. rewrite (normalize_absolute q Habs).
  apply normalize_absolute_fixed, normalized_segments_clean.
Qed.

End NormalizeAbsolute.

Section Walk.

Import JsString.

Variables (files : list (string * string)) (dirs : list string).


Lemma walk_app (a b place : list string) :
  Disk.walk files dirs (a ++ b) place
  = match Disk.walk files dirs a place with
    | Some place' => Disk.walk files dirs b place'
    | None => None
    end.
Proof.
  revert place. induction a as [|name a IH]; intros place; [reflexivity|].
  simpl. destruct (Disk.node_at files dirs (rev place)) as [[text|]|];
    [reflexivity|apply IH|reflexivity].
Qed.










End Walk.


(** ** [getEntityImageData] *)

Section GetEntityImageData.

Import Url.

Context (h : host).

Lemma image_url_truthy (entityType size imageId ext : string) :
  Js.truthy (VString (Spec.image_url entityType size imageId ext)) = true.
Proof. reflexivity. Qed.

Lemma first_match_nothing (entityType imageId : string) :
  (forall c, In c (Spec.candidates entityType imageId) -> fs_existsSync h c = false) ->
  Spec.first_match (fs_existsSync h) entityType imageId Spec.extensions
  = (None, Spec.candidates entityType imageId).
Proof.
  intros Hnone. unfold Spec.candidates, Spec.extensions in *. simpl in *.
  now rewrite !Hnone by auto.
Qed.

Lemma getImageUrl_found (entityType id variationId : prim) (size ext : string)
      (probed : list string) (st : state) :
  In size Spec.sizes ->
  Spec.first_match (fs_existsSync h) (Js.to_string entityType)
                   (Spec.image_id id variationId) Spec.extensions
  = (Some ext, probed) ->
  getImageUrl h entityType (VString size) id variationId st
  = (Return (VString (Spec.image_url (Js.to_string entityType) size
                                     (Spec.image_id id variationId) ext)),
     after_calls st (map ExistsSync probed)).
Proof.
  intros Hsize Hfm. rewrite getImageUrl_run by exact Hsize.
  cbv zeta. now rewrite Hfm.
Qed.

Lemma getEntityImageData_missing (entityType id variationId flag : prim) (st : state) :
  let et := Js.to_string entityType in
  let imageId := Spec.image_id id variationId in
  (forall c, In c (Spec.candidates et imageId) -> fs_existsSync h c = false) ->
  getEntityImageData h entityType id variationId flag st
  = (Return (if Js.truthy (Js.default_param (VBool true) flag)
             then Some Spec.placeholders else None),
     after_calls st (map ExistsSync (Spec.candidates et imageId))).
Proof.
  intros et imageId Hnone. unfold getEntityImageData.
  unfold mbind at 1. unfold M_bind.
  rewrite getImageUrl_run by (right; right; left; reflexivity).
  cbv zeta. fold et imageId. rewrite (first_match_nothing et imageId Hnone).
  simpl negb. cbv iota.
  now destruct (Js.truthy (Js.default_param (VBool true) flag)).
Qed.

Lemma hashed_app (c1 c2 : list fs_call) :
  Spec.hashed (c1 ++ c2) = Spec.hashed c1 ++ Spec.hashed c2.
Proof.
  induction c1 as [|[p|p] c1 IH]; simpl; [reflexivity|exact IH|now rewrite IH].
Qed.

Lemma hashed_probes (probed : list string) :
  Spec.hashed (map ExistsSync probed) = [].
Proof. induction probed; simpl; auto. Qed.

End GetEntityImageData.

Section GetEntityImageDataClaims.

Import Url.

(** C6.  When none of the three full-size candidates exists,
    [getEntityImageData] with the placeholder flag left out (undefined, so
    the default [true]) or [true] returns the record of the three
    placeholder paths, and with the flag [false] it returns nothing; the
    three candidates are all that is looked at. *)
Theorem getEntityImageData_no_image
        (h : host) (entityType id variationId : prim) (st : state) :
  let et := Js.to_string entityType in
  let imageId := Spec.image_id id variationId in
  (forall c, In c (Spec.candidates et imageId) -> fs_existsSync h c = false) ->
  let st' := after_calls st (map ExistsSync (Spec.candidates et imageId)) in
  getEntityImageData h entityType id variationId VUndefined st
  = (Return (Some Spec.placeholders), st')
  /\ getEntityImageData h entityType id variationId (VBool true) st
     = (Return (Some Spec.placeholders), st')
  /\ getEntityImageData h entityType id variationId (VBool false) st
     = (Return None, st')
  /\ Spec.placeholders
     = {| thumb := VString (getImageNotFoundFilename THUMB);
          medium := VString (getImageNotFoundFilename MEDIUM);
          full := VString (getImageNotFoundFilename FULL) |}.
Proof.
  intros et imageId Hnone st'.
  rewrite !getEntityImageData_missing by exact Hnone.
  repeat split.
Qed.

(** Item 5 has no image next to the stylesheet. *)
Lemma getEntityImageData_no_image_witness :
  (forall c, In c (Spec.candidates "item" "5") ->
     fs_existsSync Samples.stylesheet_only c = false)
  /\ fst (getEntityImageData Samples.stylesheet_only Samples.item Samples.five
                             VUndefined VUndefined Samples.fresh)
     = Return (Some {| thumb := VString "/images/image-not-available-thumb.svg";
                       medium := VString "/images/image-not-available-medium.svg";
                       full := VString "/images/image-not-available-full.svg" |})
  /\ fst (getEntityImageData Samples.stylesheet_only Samples.item Samples.five
                             VUndefined (VBool false) Samples.fresh)
     = Return None.
Proof.
  assert (Hnone : forall c, In c (Spec.candidates "item" "5") ->
                            fs_existsSync Samples.stylesheet_only c = false).
  { intros c [<-|[<-|[<-|[]]]]; vm_compute; reflexivity. }
  split; [exact Hnone|].
  destruct (getEntityImageData_no_image Samples.stylesheet_only Samples.item
              Samples.five VUndefined Samples.fresh Hnone)
    as (Hdefault & _ & Hfalse & _).
  split; [now rewrite Hdefault|now rewrite Hfalse].
Defined.

End GetEntityImageDataClaims.

Section HashedOnce.

Import Url.

(** The run of [getEntityImageData] on an image that is found and can be
    hashed: the probes for the full-size URL, the hash, then the probes
    for each of the three sizes. *)
Lemma getEntityImageData_found
      (h : host) (entityType id variationId usePlaceholderImage : prim)
      (ext text : string) (probed : list string) (st : state) :
  let et := Js.to_string entityType in
  let imageId := Spec.image_id id variationId in
  let file := public_path h (Spec.image_url et "full" imageId ext) in
  let hash := VString (Spec.asset_hash text) in
  Spec.first_match (fs_existsSync h) et imageId Spec.extensions = (Some ext, probed) ->
  fs_existsSync h file = true ->
  fs_readFileSync h file = Some text ->
  getEntityImageData h entityType id variationId usePlaceholderImage st
  = (Return (Some
       {| thumb := VString (addHashToUrl (Spec.image_url et "thumb" imageId ext) hash);
          medium := VString (addHashToUrl (Spec.image_url et "medium" imageId ext) hash);
          full := VString (addHashToUrl (Spec.image_url et "full" imageId ext) hash) |}),
     after_calls st
       (map ExistsSync probed ++ [ExistsSync file; ReadFileSync file]
        ++ map ExistsSync probed ++ map ExistsSync probed ++ map ExistsSync probed)).
Proof.
  intros et imageId file hash Hfm Hex Hread.
  assert (Hurl : forall size st0, In size Spec.sizes ->
            getImageUrl h entityType (VString size) id variationId st0
            = (Return (VString (Spec.image_url et size imageId ext)),
               after_calls st0 (map ExistsSync probed))).
  { intros size st0 Hsize. now apply getImageUrl_found. }
  assert (Hhash : Js.truthy hash = true) by apply file_hash_truthy.
  unfold getEntityImageData.
  rewrite (bind_run _ _ _ _ _ (Hurl FULL st ltac:(right; right; left; reflexivity))).
  cbv beta. rewrite image_url_truthy. change (negb true) with false. cbv iota.
  change (public_path h (Spec.image_url et FULL imageId ext)) with file.
  assert (Hfile : createFileHash h file (after_calls st (map ExistsSync probed))
                  = (Return hash, after_calls (after_calls st (map ExistsSync probed))
                                    [ExistsSync file; ReadFileSync file])).
  { rewrite createFileHash_run. now rewrite Hex, Hread. }
  rewrite (bind_run _ _ _ _ _ Hfile).
  rewrite (bind_run _ _ _ _ _ (Hurl THUMB _ ltac:(left; reflexivity))).
  rewrite (bind_run _ _ _ _ _ (computeStaticAssetUrl_given h _ _ _ Hhash)).
  rewrite (bind_run _ _ _ _ _ (Hurl MEDIUM _ ltac:(right; left; reflexivity))).
  rewrite (bind_run _ _ _ _ _ (computeStaticAssetUrl_given h _ _ _ Hhash)).
  rewrite (bind_run _ _ _ _ _ (Hurl FULL _ ltac:(right; right; left; reflexivity))).
  rewrite (bind_run _ _ _ _ _ (computeStaticAssetUrl_given h _ _ _ Hhash)).
  unfold mret, M_ret. now rewrite !after_calls_app.
Qed.

Lemma hashed_found (file : string) (probed : list string) :
  Spec.hashed (map ExistsSync probed ++ [ExistsSync file; ReadFileSync file]
               ++ map ExistsSync probed ++ map ExistsSync probed
               ++ map ExistsSync probed)
  = [file].
Proof. rewrite !hashed_app, !hashed_probes. reflexivity. Qed.

(** C5, as the code has it.  When the full-size image is found with
    extension [ext] and the file behind its URL under the public root,
    [path.join(cwd, 'public', <full URL>)], exists and reads as [text],
    [getEntityImageData] returns the three size-variant URLs, each with
    the same hash spliced in, the seven-character hash of [text]; exactly
    one file is read and hashed on the way, that one; the other filesystem
    calls are existence probes. *)
Theorem getEntityImageData_one_hash
        (h : host) (entityType id variationId usePlaceholderImage : prim)
        (ext text : string) (probed : list string) (st : state) :
  let et := Js.to_string entityType in
  let imageId := Spec.image_id id variationId in
  let file := public_path h (Spec.image_url et "full" imageId ext) in
  let hash := VString (Spec.asset_hash text) in
  Spec.first_match (fs_existsSync h) et imageId Spec.extensions = (Some ext, probed) ->
  fs_existsSync h file = true ->
  fs_readFileSync h file = Some text ->
  exists calls : list fs_call,
    getEntityImageData h entityType id variationId usePlaceholderImage st
    = (Return (Some
         {| thumb := VString (addHashToUrl (Spec.image_url et "thumb" imageId ext) hash);
            medium := VString (addHashToUrl (Spec.image_url et "medium" imageId ext) hash);
            full := VString (addHashToUrl (Spec.image_url et "full" imageId ext) hash) |}),
       after_calls st calls)
    /\ Spec.hashed calls = [file].
Proof.
  intros et imageId file hash Hfm Hex Hread.
  eexists. split.
  - exact (getEntityImageData_found h entityType id variationId usePlaceholderImage
             ext text probed st Hfm Hex Hread).
  - apply hashed_found.
Qed.

(** Item 5 with its PNG: the hash of the PNG is in all three URLs. *)
Lemma getEntityImageData_one_hash_witness :
  exists calls : list fs_call,
    getEntityImageData Samples.png_and_jpg Samples.item Samples.five
                       VUndefined VUndefined Samples.fresh
    = (Return (Some {| thumb := VString "/images/items/thumb/5.0b2630f.png";
                       medium := VString "/images/items/medium/5.0b2630f.png";
                       full := VString "/images/items/full/5.0b2630f.png" |}),
       after_calls Samples.fresh calls)
    /\ Spec.hashed calls = ["/srv/villagerdb/public/images/items/full/5.png"].
Proof.
  destruct (getEntityImageData_one_hash Samples.png_and_jpg Samples.item Samples.five
              VUndefined VUndefined ".png" "png of item 5"
              ["./public/images/items/full/5.png"] Samples.fresh)
    as (calls & Hrun & Hhashed); try (vm_compute; reflexivity).
  exists calls. split; [|exact Hhashed].
  rewrite Hrun. vm_compute. reflexivity.
Defined.


(** C5, as the specification has it, fails when what exists at the path
    of the full-size image cannot be read; here [full/5.png] is a
    directory.  The probe finds it, so for the code the full-size image
    exists and [getImageUrl] returns its URL, but [getEntityImageData]
    throws while hashing it: no URL is returned, with or without a hash. *)
Lemma getEntityImageData_existing_image_throws :
  fs_existsSync EdgeSamples.directory_as_image "./public/images/items/full/5.png" = true
  /\ fst (getImageUrl EdgeSamples.directory_as_image Samples.item (VString FULL)
                      Samples.five VUndefined Samples.fresh)
     = Return (VString "/images/items/full/5.png")
  /\ fst (getEntityImageData EdgeSamples.directory_as_image Samples.item Samples.five
                             VUndefined VUndefined Samples.fresh)
     = Throw "readFileSync"
  /\ ~ (forall (h : host) (entityType id variationId : prim) (st : state)
               (url : string),
          fst (getImageUrl h entityType (VString FULL) id variationId st)
          = Return (VString url) ->
          exists (data : image_data) (st' : state),
            getEntityImageData h entityType id variationId VUndefined st
            = (Return (Some data), st')).
Proof.
  assert (Hurl : fst (getImageUrl EdgeSamples.directory_as_image Samples.item
                        (VString FULL) Samples.five VUndefined Samples.fresh)
                 = Return (VString "/images/items/full/5.png"))
    by (vm_compute; reflexivity).
  assert (Hthrow : fst (getEntityImageData EdgeSamples.directory_as_image Samples.item
                          Samples.five VUndefined VUndefined Samples.fresh)
                   = Throw "readFileSync")
    by (vm_compute; reflexivity).
  split; [vm_compute; reflexivity|]. split; [exact Hurl|]. split; [exact Hthrow|].
  intros Hall.
  destruct (Hall EdgeSamples.directory_as_image Samples.item Samples.five VUndefined
              Samples.fresh _ Hurl) as (data & st' & Hreturn).
  rewrite Hreturn in Hthrow. discriminate.
Qed.


End HashedOnce.

(** ** [getCacheBustedUrl] *)

Section GetCacheBustedUrl.

Import Url.

Context (h : host).

Lemma getCacheBustedUrl_run (inputUrl : prim) (st : state) :
  let key := Js.to_string inputUrl in
  getCacheBustedUrl h inputUrl st
  = if Js.truthy_value (get_property (staticCache st) key)
    then (Return (get_property (staticCache st) key), st)
    else match computeStaticAssetUrl h inputUrl VUndefined st with
         | (Return computed, st') =>
             let st1 := State (set_property (staticCache st') key computed)
                              (fs_calls st') in
             (Return (get_property (staticCache st1) key), st1)
         | (Throw e, st') => (Throw e, st')
         end.
Proof.
  intros key. unfold getCacheBustedUrl. fold key.
  unfold mbind at 1. unfold M_bind at 1. unfold cache_get at 1.
  destruct (Js.truthy_value (get_property (staticCache st) key)); [reflexivity|].
  unfold mbind at 1. unfold M_bind at 1.
  destruct (computeStaticAssetUrl h inputUrl VUndefined st) as [[computed|e] st'];
    reflexivity.
Qed.

(** A miss on a plain object is not on [__proto__], which reads as an
    object. *)
Lemma miss_not_proto (own : gmap string prim) (key : string) :
  Spec.plain_object own ->
  Js.truthy_value (get_property own key) = false ->
  key <> "__proto__".
Proof.
  intros Hplain Hmiss ->. unfold get_property in Hmiss.
  rewrite Hplain in Hmiss. discriminate.
Qed.

Lemma get_set_property (own : gmap string prim) (key : string) (p : prim) :
  key <> "__proto__" ->
  set_property own key p = <[key := p]> own
  /\ get_property (set_property own key p) key = Prim p.
Proof.
  intros Hkey. unfold set_property.
  apply String.eqb_neq in Hkey. rewrite Hkey. split; [reflexivity|].
  unfold get_property. now rewrite lookup_insert_eq.
Qed.

Lemma set_property_plain (own : gmap string prim) (key : string) (p : prim) :
  Spec.plain_object own -> Spec.plain_object (set_property own key p).
Proof.
  unfold Spec.plain_object, set_property. intros Hplain.
  destruct (String.eqb key "__proto__") eqn:E; [exact Hplain|].
  apply String.eqb_neq in E. now rewrite lookup_insert_ne.
Qed.

End GetCacheBustedUrl.

Section CacheInvariant.

Import Url.

Context (h : host).

(** [computeStaticAssetUrl] leaves [staticCache] alone and reads at most
    one file. *)
Lemma computeStaticAssetUrl_effect (inputUrl computedHash : prim) (st : state) :
  exists calls : list fs_call,
    snd (computeStaticAssetUrl h inputUrl computedHash st) = after_calls st calls
    /\ List.length (Spec.hashed calls) <= 1.
Proof.
  destruct (Js.is_string inputUrl) eqn:Hs.
  - destruct inputUrl as [| | | |url]; try discriminate.
    destruct (Js.truthy computedHash) eqn:Hhash.
    + exists []. rewrite computeStaticAssetUrl_given by exact Hhash.
      simpl. now rewrite after_no_calls; auto.
    + rewrite computeStaticAssetUrl_computed by exact Hhash. cbv zeta.
      destruct (fs_existsSync h (public_path h url)).
      * exists [ExistsSync (public_path h url); ReadFileSync (public_path h url)].
        now destruct (fs_readFileSync h (public_path h url)).
      * exists [ExistsSync (public_path h url)]. simpl. split; [reflexivity|lia].
  - exists []. rewrite computeStaticAssetUrl_not_string by exact Hs.
    simpl. now rewrite after_no_calls; auto.
Qed.

(** X17.  Whatever the input, a call of [getCacheBustedUrl] reads and
    hashes at most one file, also when it throws, and [staticCache] stays
    a plain object. *)
Lemma getCacheBustedUrl_effect (inputUrl : prim) (st : state) :
  Spec.plain_object (staticCache st) ->
  let st1 := snd (getCacheBustedUrl h inputUrl st) in
  Spec.plain_object (staticCache st1)
  /\ exists calls : list fs_call,
       fs_calls st1 = fs_calls st ++ calls
       /\ List.length (Spec.hashed calls) <= 1.
Proof.
  intros Hplain st1. subst st1. rewrite getCacheBustedUrl_run. cbv zeta.
  destruct (Js.truthy_value _).
  - split; [exact Hplain|]. exists []. simpl. now rewrite app_nil_r; auto.
  - destruct (computeStaticAssetUrl_effect inputUrl VUndefined st)
      as (calls & Hst & Hcalls).
    destruct (computeStaticAssetUrl h inputUrl VUndefined st) as [[computed|e] st'];
      simpl in Hst; subst st'; simpl.
    + split; [now apply set_property_plain|]. now exists calls.
    + split; [exact Hplain|]. now exists calls.
Qed.

End CacheInvariant.

Section GetCacheBustedUrlClaims.

Import Url.

(** C7, as the code has it.  (1) When the first call returns a truthy
    value, a second call with the same input returns the identical value
    and leaves the state as it is: a cache hit, with no filesystem call.
    (2) A first call that misses the cache on a non-empty string URL whose
    file under [public] is absent or readable returns a non-empty string,
    reads and hashes at most one file, and stores the result under the
    input URL, also when it is the unchanged URL; the second call then
    returns the same string from the cache.  (3) A first call that misses
    on an input that is not a string returns undefined and stores
    undefined under the property key of the input. *)
Theorem getCacheBustedUrl_cached (h : host) (st : state) :
  (forall inputUrl v st1,
     getCacheBustedUrl h inputUrl st = (Return v, st1) ->
     Js.truthy_value v = true ->
     getCacheBustedUrl h inputUrl st1 = (Return v, st1))
  /\ (forall url,
        url <> "" ->
        Spec.plain_object (staticCache st) ->
        Js.truthy_value (get_property (staticCache st) url) = false ->
        (fs_existsSync h (public_path h url) = true ->
         is_Some (fs_readFileSync h (public_path h url))) ->
        exists (s : string) (calls : list fs_call),
          let st1 := State (<[url := VString s]> (staticCache st))
                           (fs_calls st ++ calls) in
          s <> ""
          /\ getCacheBustedUrl h (VString url) st = (Return (Prim (VString s)), st1)
          /\ getCacheBustedUrl h (VString url) st1 = (Return (Prim (VString s)), st1)
          /\ List.length (Spec.hashed calls) <= 1
          /\ (fs_existsSync h (public_path h url) = false -> s = url))
  /\ (forall inputUrl,
        (forall url, inputUrl <> VString url) ->
        Spec.plain_object (staticCache st) ->
        Js.truthy_value (get_property (staticCache st) (Js.to_string inputUrl)) = false ->
        getCacheBustedUrl h inputUrl st
        = (Return (Prim VUndefined),
           State (<[Js.to_string inputUrl := VUndefined]> (staticCache st))
                 (fs_calls st))).
Proof.
  split; [|split].
  - intros inputUrl v st1 Hfirst Hv.
    rewrite getCacheBustedUrl_run in Hfirst. cbv zeta in Hfirst.
    destruct (Js.truthy_value (get_property (staticCache st) (Js.to_string inputUrl)))
      eqn:Hcached.
    + injection Hfirst as <- <-.
      rewrite getCacheBustedUrl_run. cbv zeta. now rewrite Hcached.
    + destruct (computeStaticAssetUrl h inputUrl VUndefined st)
        as [[computed|e] st']; [|discriminate].
      injection Hfirst as <- <-.
      rewrite getCacheBustedUrl_run. cbv zeta. simpl staticCache.
      now rewrite Hv.
  - intros url Hurl Hplain Hmiss Hreadable.
    pose proof (miss_not_proto _ _ Hplain Hmiss) as Hkey.
    assert (Hstored : forall (s : string) (calls : list fs_call),
              s <> "" ->
              computeStaticAssetUrl h (VString url) VUndefined st
              = (Return (VString s), after_calls st calls) ->
              let st1 := State (<[url := VString s]> (staticCache st))
                               (fs_calls st ++ calls) in
              getCacheBustedUrl h (VString url) st = (Return (Prim (VString s)), st1)
              /\ getCacheBustedUrl h (VString url) st1 = (Return (Prim (VString s)), st1)).
    { intros s calls Hs Hcomputed st1.
      destruct (get_set_property (staticCache st) url (VString s) Hkey) as [Hset Hget].
      assert (Hfirst : getCacheBustedUrl h (VString url) st
                       = (Return (Prim (VString s)), st1)).
      { rewrite getCacheBustedUrl_run. cbv zeta. simpl Js.to_string.
        rewrite Hmiss, Hcomputed. simpl staticCache. simpl fs_calls.
        rewrite Hget, Hset. reflexivity. }
      split; [exact Hfirst|].
      rewrite getCacheBustedUrl_run. cbv zeta. simpl Js.to_string.
      subst st1. simpl staticCache. unfold get_property at 1 2.
      rewrite lookup_insert_eq. simpl.
      destruct (String.eqb_spec s ""); [contradiction|reflexivity]. }
    pose proof (computeStaticAssetUrl_computed h url VUndefined st eq_refl) as Hrun.
    cbv zeta in Hrun.
    destruct (fs_existsSync h (public_path h url)) eqn:Hex.
    + destruct (Hreadable eq_refl) as [text Htext]. rewrite Htext in Hrun.
      set (s := addHashToUrl url (VString (Spec.asset_hash text))) in *.
      assert (Hs : s <> "").
      { intros E. apply (f_equal String.length) in E. subst s.
        rewrite addHashToUrl_length in E. simpl in E. lia. }
      exists s, [ExistsSync (public_path h url); ReadFileSync (public_path h url)].
      destruct (Hstored s _ Hs Hrun) as [Hfirst Hsecond].
      split; [exact Hs|]. split; [exact Hfirst|]. split; [exact Hsecond|].
      split; [simpl; lia|discriminate].
    + exists url, [ExistsSync (public_path h url)].
      destruct (Hstored url _ Hurl Hrun) as [Hfirst Hsecond].
      split; [exact Hurl|]. split; [exact Hfirst|]. split; [exact Hsecond|].
      split; [simpl; lia|reflexivity].
  - intros inputUrl Hns Hplain Hmiss.
    pose proof (miss_not_proto _ _ Hplain Hmiss) as Hkey.
    destruct (get_set_property (staticCache st) (Js.to_string inputUrl) VUndefined Hkey)
      as [Hset Hget].
    rewrite getCacheBustedUrl_run. cbv zeta. rewrite Hmiss.
    rewrite computeStaticAssetUrl_not_string.
    + cbv iota. cbn [staticCache fs_calls]. rewrite Hget, Hset. reflexivity.
    + destruct inputUrl; try reflexivity. now destruct (Hns s).
Qed.

(** The stylesheet is hashed by the first call and served from the cache
    by the second. *)
Lemma getCacheBustedUrl_cached_witness :
  "/css/site.css" <> ""
  /\ Spec.plain_object (staticCache Samples.fresh)
  /\ exists st1 : state,
       getCacheBustedUrl Samples.stylesheet_only (VString "/css/site.css") Samples.fresh
       = (Return (Prim (VString "/css/site.f2b804d.css")), st1)
       /\ getCacheBustedUrl Samples.stylesheet_only (VString "/css/site.css") st1
          = (Return (Prim (VString "/css/site.f2b804d.css")), st1)
       /\ getCacheBustedUrl Samples.stylesheet_only VNull st1
          = (Return (Prim VUndefined),
             State (<["null" := VUndefined]> (staticCache st1)) (fs_calls st1)).
Proof.
  assert (Hurl : "/css/site.css" <> "") by discriminate.
  assert (Hplain : Spec.plain_object (staticCache Samples.fresh)) by reflexivity.
  split; [exact Hurl|]. split; [exact Hplain|].
  destruct (getCacheBustedUrl_cached Samples.stylesheet_only Samples.fresh)
    as (_ & Hmiss & _).
  destruct (Hmiss "/css/site.css" Hurl Hplain eq_refl)
    as (s & calls & Hs & Hfirst & Hsecond & _).
  { intros _. vm_compute. eauto. }
  cbv zeta in Hfirst, Hsecond.
  assert (Es : s = "/css/site.f2b804d.css").
  { pose proof (f_equal fst Hfirst) as E. cbn [fst] in E.
    assert (Ec : fst (getCacheBustedUrl Samples.stylesheet_only
                        (VString "/css/site.css") Samples.fresh)
                 = Return (Prim (VString "/css/site.f2b804d.css")))
      by (vm_compute; reflexivity).
    rewrite Ec in E. now injection E as <-. }
  subst s.
  eexists. split; [exact Hfirst|]. split; [exact Hsecond|].
  destruct (getCacheBustedUrl_cached Samples.stylesheet_only
              (State (<["/css/site.css" := VString "/css/site.f2b804d.css"]>
                        (staticCache Samples.fresh))
                     (fs_calls Samples.fresh ++ calls)))
    as (_ & _ & Hnot_string).
  apply Hnot_string.
  - discriminate.
  - unfold Spec.plain_object. cbn [staticCache Samples.fresh].
    rewrite lookup_insert_ne by discriminate. apply lookup_empty.
  - unfold get_property. cbn [staticCache Samples.fresh Js.to_string].
    rewrite lookup_insert_ne by discriminate. rewrite lookup_empty. reflexivity.
Defined.

(** C7, as the specification has it, fails on the empty URL in a
    directory without [public]: the first call finds nothing to hash,
    returns the empty string and stores it; the stored empty string is
    falsy, so the second call is no cache hit and probes the filesystem
    again. *)
Lemma getCacheBustedUrl_empty_url_not_cached :
  ~ Spec.cached_by_first_call Samples.bare (VString "") Samples.fresh.
Proof.
  intros (result & cache & calls & Hfirst & Hsecond & _).
  cbv zeta in Hfirst, Hsecond.
  assert (E1 : getCacheBustedUrl Samples.bare (VString "") Samples.fresh
               = (Return (Prim (VString "")),
                  State (<["" := VString ""]> ∅) [ExistsSync "/srv/villagerdb/public"])).
  { rewrite getCacheBustedUrl_run. cbv zeta.
    rewrite computeStaticAssetUrl_computed by reflexivity. reflexivity. }
  rewrite E1 in Hfirst. injection Hfirst as <- <- Hcalls.
  simpl in Hcalls. subst calls.
  assert (E2 : fs_calls (snd (getCacheBustedUrl Samples.bare (VString "")
                 (State (<["" := VString ""]> ∅)
                        [ExistsSync "/srv/villagerdb/public"])))
               = [ExistsSync "/srv/villagerdb/public";
                  ExistsSync "/srv/villagerdb/public"]).
  { rewrite getCacheBustedUrl_run. cbv zeta.
    rewrite computeStaticAssetUrl_computed by reflexivity. reflexivity. }
  simpl fs_calls in Hsecond. simpl app in Hsecond.
  rewrite Hsecond in E2. discriminate.
Qed.

(** The other inputs on which the specification's sentence fails: a name
    inherited from [Object.prototype] reads as a function, which is
    returned and nothing is stored; a directory cannot be read, so every
    call throws. *)
Lemma getCacheBustedUrl_inherited_name :
  getCacheBustedUrl Samples.stylesheet_only (VString "constructor") Samples.fresh
  = (Return (Builtin "constructor"), Samples.fresh).
Proof. reflexivity. Qed.

Lemma getCacheBustedUrl_directory :
  fst (getCacheBustedUrl Samples.stylesheet_only (VString "/css") Samples.fresh)
  = Throw "readFileSync".
Proof. reflexivity. Qed.

End GetCacheBustedUrlClaims.

(** * Further properties *)

(** ** [createFileHash] *)

Section CreateFileHash.

Import Url.

Lemma string_forall_append (P : ascii -> bool) (a b : string) :
  string_forall P (a +:+ b) = string_forall P a && string_forall P b.
Proof.
  induction a as [|c a IH]; [reflexivity|].
  rewrite append_cons. simpl. rewrite IH. now rewrite andb_assoc.
Qed.

Lemma string_forall_substr0 (P : ascii -> bool) (n : nat) (s : string) :
  string_forall P s = true -> string_forall P (JsString.substr0 n s) = true.
Proof.
  unfold JsString.substr0. revert s.
  induction n as [|n IH]; intros [|c s]; simpl; try reflexivity.
  intros H. apply andb_true_iff in H as [Hc Hs]. rewrite Hc. now apply IH.
Qed.

Lemma hex_digit_lower (x : Z) :
  (0 <= x < 16)%Z -> is_lower_hex (Md5.hex_digit x) = true.
Proof.
  intros Hx. unfold Md5.hex_digit.
  assert (Hn : Z.to_nat x < 16) by lia.
  generalize dependent (Z.to_nat x). intros n Hn.
  do 16 (destruct n as [|n]; [reflexivity|]). lia.
Qed.

Lemma low_byte_range (x : Z) : (0 <= Z.land x 0xff < 256)%Z.
Proof.
  change 0xff%Z with (Z.ones 8). rewrite Z.land_ones by lia.
  apply Z.mod_pos_bound. reflexivity.
Qed.

Lemma hex_byte_lower (x : Z) :
  string_forall is_lower_hex (Md5.hex_byte (Z.land x 0xff)) = true.
Proof.
  pose proof (low_byte_range x) as Hb. set (b := Z.land x 0xff) in *.
  unfold Md5.hex_byte. simpl.
  rewrite !hex_digit_lower; [reflexivity| |].
  - change 0xf%Z with (Z.ones 4). rewrite Z.land_ones by lia.
    apply Z.mod_pos_bound. reflexivity.
  - rewrite Z.shiftr_div_pow2 by lia. change (2 ^ 4)%Z with 16%Z.
    split; [apply Z.div_pos; lia|apply Z.div_lt_upper_bound; lia].
Qed.

Lemma hex_word_lower (w : Z) :
  string_forall is_lower_hex (Md5.hex_word w) = true.
Proof.
  unfold Md5.hex_word. now rewrite !string_forall_append, !hex_byte_lower.
Qed.

Lemma md5_hex_lower (s : string) :
  string_forall is_lower_hex (Md5.hex s) = true.
Proof.
  unfold Md5.hex. destruct (Md5.digest s) as [a b c d].
  now rewrite !string_forall_append, !hex_word_lower.
Qed.

(** X1.  For a file that exists and can be read, [createFileHash] returns
    a string of exactly seven characters, each one of [0-9a-f], that
    depends on the text of the file only; it calls [existsSync] and then
    [readFileSync] once each, on the given path. *)
Theorem createFileHash_seven_hex (h : host) (filePath text : string) (st : state) :
  fs_existsSync h filePath = true ->
  fs_readFileSync h filePath = Some text ->
  exists hash : string,
    createFileHash h filePath st
    = (Return (VString hash),
       after_calls st [ExistsSync filePath; ReadFileSync filePath])
    /\ String.length hash = 7
    /\ string_forall is_lower_hex hash = true
    /\ hash = JsString.substr0 7 (Md5.hex text).
Proof.
  intros Hex Hread. exists (JsString.substr0 7 (Md5.hex text)).
  split; [|split; [|split]].
  - rewrite createFileHash_run, Hex, Hread. reflexivity.
  - apply file_hash_length.
  - apply string_forall_substr0, md5_hex_lower.
  - reflexivity.
Qed.

Lemma createFileHash_seven_hex_witness :
  createFileHash Samples.stylesheet_only "/srv/villagerdb/public/css/site.css"
                 Samples.fresh
  = (Return (VString "f2b804d"),
     after_calls Samples.fresh
       [ExistsSync "/srv/villagerdb/public/css/site.css";
        ReadFileSync "/srv/villagerdb/public/css/site.css"]).
Proof.
  assert (Hex : fs_existsSync Samples.stylesheet_only
                  "/srv/villagerdb/public/css/site.css" = true)
    by (vm_compute; reflexivity).
  assert (Hread : fs_readFileSync Samples.stylesheet_only
                    "/srv/villagerdb/public/css/site.css"
                  = Some "body { color: red; }")
    by (vm_compute; reflexivity).
  destruct (createFileHash_seven_hex Samples.stylesheet_only _ _ Samples.fresh
              Hex Hread)
    as (hash & Hrun & _ & _ & Hhash).
  rewrite Hrun, Hhash. vm_compute. reflexivity.
Defined.

(** X2.  Whenever [createFileHash] returns, its result is truthy exactly
    when the path exists, so that the callers' test of the hash is a test
    for the file; a path that does not exist is never read.  When the path
    exists and cannot be read (a directory), it throws. *)
Theorem createFileHash_truthy_iff_exists (h : host) (filePath : string) (st : state) :
  (forall r st', createFileHash h filePath st = (Return r, st') ->
     (Js.truthy r = true <-> fs_existsSync h filePath = true)
     /\ (fs_existsSync h filePath = false ->
         r = VUndefined /\ st' = after_calls st [ExistsSync filePath]))
  /\ (fs_existsSync h filePath = true -> fs_readFileSync h filePath = None ->
      fst (createFileHash h filePath st) = Throw "readFileSync").
Proof.
  rewrite createFileHash_run. split.
  - intros r st' Hrun. destruct (fs_existsSync h filePath).
    + destruct (fs_readFileSync h filePath) as [text|]; [|discriminate].
      injection Hrun as <- <-. rewrite file_hash_truthy. now split.
    + injection Hrun as <- <-. simpl. split; [split; discriminate|now split].
  - intros -> ->. reflexivity.
Qed.

Lemma createFileHash_truthy_iff_exists_witness :
  fst (createFileHash Samples.stylesheet_only "/srv/villagerdb/public/css"
                      Samples.fresh)
  = Throw "readFileSync"
  /\ forall r st',
       createFileHash Samples.stylesheet_only "/srv/villagerdb/public/js/app.js"
                      Samples.fresh = (Return r, st') ->
       r = VUndefined.
Proof.
  destruct (createFileHash_truthy_iff_exists Samples.stylesheet_only
              "/srv/villagerdb/public/css" Samples.fresh) as [_ Hthrow].
  split; [apply Hthrow; vm_compute; reflexivity|].
  intros r st' Hrun.
  destruct (createFileHash_truthy_iff_exists Samples.stylesheet_only
              "/srv/villagerdb/public/js/app.js" Samples.fresh) as [Hret _].
  destruct (Hret r st' Hrun) as [_ Hmissing].
  now destruct Hmissing as [-> _]; [vm_compute; reflexivity|].
Defined.

End CreateFileHash.

(** ** More on [addHashToUrl] *)

Section Splice.

Import JsString Url.

Lemma append_cancel_r (a b c : string) : a +:+ c = b +:+ c -> a = b.
Proof.
  revert b. induction a as [|x a IH]; intros [|y b] E.
  - reflexivity.
  - apply (f_equal String.length) in E.
    rewrite !length_append in E. simpl in E. lia.
  - apply (f_equal String.length) in E.
    rewrite !length_append in E. simpl in E. lia.
  - rewrite !append_cons in E. injection E as -> E. now rewrite (IH b E).
Qed.

Lemma append_cancel_l (a b c : string) : a +:+ b = a +:+ c -> b = c.
Proof.
  induction a as [|x a IH]; [easy|].
  rewrite !append_cons. intros [= E]. now apply IH.
Qed.

(** A hash of any primitive type is spliced as its [join] rendering. *)
Lemma addHashToUrl_join_item (u : string) (hash : prim) :
  addHashToUrl u hash = addHashToUrl u (VString (Js.join_item hash)).
Proof. now rewrite !addHashToUrl_segments. Qed.

(** The segments of the result, for a hash without ".". *)
Lemma addHashToUrl_split (u h : string) :
  contains dot h = false ->
  let segments := split dot u in
  split dot (addHashToUrl u (VString h))
  = removelast segments ++ [h; List.last segments ""].
Proof.
  intros Hh segments. subst segments. destruct (contains dot u) eqn:Hu.
  - destruct (cut_at_last dot u Hu) as (p & x & -> & Hx).
    rewrite addHashToUrl_at_last_dot by exact Hx.
    replace (p +:+ "." +:+ h +:+ "." +:+ x)
      with ((p +:+ String dot h) +:+ String dot x)
      by now rewrite !append_assoc.
    rewrite !split_app_sep, (split_without_sep _ _ Hx), (split_without_sep _ _ Hh).
    rewrite removelast_last, last_last. now rewrite <- app_assoc.
  - rewrite addHashToUrl_without_dot by exact Hu.
    change (h +:+ "." +:+ u) with (h +:+ String dot u).
    now rewrite split_app_sep, !(split_without_sep dot) by assumption.
Qed.

(** [strip_hash] on a string of known segments. *)
Lemma strip_hash_segments (s : string) (init : list string) (h ext : string) :
  split dot s = init ++ [h; ext] ->
  strip_hash s = join "." (init ++ [ext]).
Proof.
  intros E. unfold strip_hash. rewrite E.
  change [h; ext] with ([h] ++ [ext]).
  now rewrite app_assoc, removelast_last, last_last, removelast_last.
Qed.

Lemma last_segment_at_dot (a x : string) :
  contains dot x = false -> last_segment (a +:+ String dot x) = x.
Proof.
  intros Hx. unfold last_segment.
  now rewrite split_app_sep, (split_without_sep _ _ Hx), last_last.
Qed.

Lemma last_segment_spliced (u : string) (hash : prim) :
  last_segment (addHashToUrl u hash) = last_segment u.
Proof.
  rewrite addHashToUrl_join_item. set (h := Js.join_item hash).
  destruct (contains dot u) eqn:Hu.
  - destruct (cut_at_last dot u Hu) as (p & x & -> & Hx).
    rewrite addHashToUrl_at_last_dot by exact Hx.
    replace (p +:+ "." +:+ h +:+ "." +:+ x)
      with ((p +:+ String dot h) +:+ String dot x)
      by now rewrite !append_assoc.
    now rewrite !last_segment_at_dot.
  - rewrite addHashToUrl_without_dot by exact Hu.
    change (h +:+ "." +:+ u) with (h +:+ String dot u).
    rewrite last_segment_at_dot by exact Hu.
    unfold last_segment. now rewrite (split_without_sep _ _ Hu).
Qed.

(** X3.  Round trip: for a hash without ".", such as the seven hex
    characters of [createFileHash], removing the segment before the last
    from [addHashToUrl(u, h)] gives [u] back, for every [u], with or
    without a ".". *)
Theorem addHashToUrl_strip_round_trip (u h : string) :
  contains dot h = false ->
  strip_hash (addHashToUrl u (VString h)) = u.
Proof.
  intros Hh.
  rewrite (strip_hash_segments _ _ h _ (addHashToUrl_split u h Hh)).
  rewrite <- app_removelast_last by apply split_not_nil.
  change "." with (String dot ""). apply join_split.
Qed.

Lemma addHashToUrl_strip_round_trip_witness :
  strip_hash (addHashToUrl "/css/site.min.css" (VString "f2b804d")) = "/css/site.min.css"
  /\ addHashToUrl "/css/site.min.css" (VString "f2b804d") = "/css/site.min.f2b804d.css".
Proof.
  split; [|reflexivity].
  apply (addHashToUrl_strip_round_trip "/css/site.min.css" "f2b804d"). reflexivity.
Defined.

(** X4.  Cache busting works: for a given URL two different hashes give
    two different results, and, for a hash without ".", two different
    URLs never get the same result. *)
Theorem addHashToUrl_injective :
  (forall u h1 h2 : string,
     h1 <> h2 -> addHashToUrl u (VString h1) <> addHashToUrl u (VString h2))
  /\ (forall u1 u2 h : string,
        contains dot h = false -> u1 <> u2 ->
        addHashToUrl u1 (VString h) <> addHashToUrl u2 (VString h)).
Proof.
  split.
  - intros u h1 h2 Hne E. apply Hne. destruct (contains dot u) eqn:Hu.
    + destruct (cut_at_last dot u Hu) as (p & x & -> & Hx).
      rewrite !addHashToUrl_at_last_dot in E by exact Hx.
      apply append_cancel_l, append_cancel_l in E.
      now apply append_cancel_r in E.
    + rewrite !addHashToUrl_without_dot in E by exact Hu.
      now apply append_cancel_r in E.
  - intros u1 u2 h Hh Hne E. apply Hne.
    pose proof (addHashToUrl_split u1 h Hh) as H1.
    pose proof (addHashToUrl_split u2 h Hh) as H2.
    cbv zeta in H1, H2. rewrite E, H2 in H1.
    change [h; List.last (split dot u2) ""]
      with ([h] ++ [List.last (split dot u2) ""]) in H1.
    change [h; List.last (split dot u1) ""]
      with ([h] ++ [List.last (split dot u1) ""]) in H1.
    rewrite !app_assoc in H1.
    apply app_inj_tail in H1 as [H1 Hlast].
    apply app_inj_tail in H1 as [Hinit _].
    rewrite <- (join_split dot u1), <- (join_split dot u2).
    rewrite (app_removelast_last "" (split_not_nil dot u1)).
    rewrite (app_removelast_last "" (split_not_nil dot u2)).
    now rewrite Hinit, Hlast.
Qed.

Lemma addHashToUrl_injective_witness :
  addHashToUrl "/js/app.js" (VString "0b2630f") <> addHashToUrl "/js/app.js" (VString "f2b804d")
  /\ addHashToUrl "/js/app.js" (VString "f2b804d") <> addHashToUrl "/js/app" (VString "f2b804d").
Proof.
  destruct addHashToUrl_injective as [Hhash Hurl].
  split; [apply Hhash|apply Hurl]; (discriminate || reflexivity).
Defined.

(** X5.  The hash goes in front of the last "." of the whole string, so
    whatever stands before a part that has a "." is left alone: a
    directory prefix is kept when the file name has an extension.  The
    part after the last "." is never changed, whatever the type of the
    hash. *)
Theorem addHashToUrl_keeps_prefix_and_extension :
  (forall (prefix name : string) (hash : prim),
     contains dot name = true ->
     addHashToUrl (prefix +:+ name) hash = prefix +:+ addHashToUrl name hash)
  /\ (forall (u : string) (hash : prim),
        last_segment (addHashToUrl u hash) = last_segment u).
Proof.
  split; [|apply last_segment_spliced].
  intros prefix name hash Hname.
  rewrite (addHashToUrl_join_item (prefix +:+ name)), (addHashToUrl_join_item name).
  destruct (cut_at_last dot name Hname) as (p & x & -> & Hx).
  rewrite <- append_assoc.
  rewrite !addHashToUrl_at_last_dot by exact Hx. now rewrite !append_assoc.
Qed.

Lemma addHashToUrl_keeps_prefix_and_extension_witness :
  addHashToUrl ("/images/items.v2/full/" +:+ "5.png") (VBool true)
  = "/images/items.v2/full/" +:+ "5.true.png"
  /\ last_segment (addHashToUrl "/images/items.v2/full/5.png" (VBool true)) = "png".
Proof.
  destruct addHashToUrl_keeps_prefix_and_extension as [Hprefix Hext].
  split.
  - rewrite (Hprefix "/images/items.v2/full/" "5.png" (VBool true)) by reflexivity.
    reflexivity.
  - rewrite Hext. reflexivity.
Defined.

End Splice.

(** ** [getEntityUrl] *)

Section GetEntityUrl.

Import JsString Url.

(** Two strings cut at the first separator: the parts are determined. *)
Lemma cut_at_first_unique (sep : ascii) (a1 a2 b1 b2 : string) :
  contains sep a1 = false -> contains sep a2 = false ->
  a1 +:+ String sep b1 = a2 +:+ String sep b2 -> a1 = a2 /\ b1 = b2.
Proof.
  revert a2. induction a1 as [|x a1 IH]; intros [|y a2] H1 H2 E.
  - now injection E.
  - rewrite append_cons, append_empty_l in E. injection E as <- _.
    simpl in H2. now rewrite Ascii.eqb_refl in H2.
  - rewrite append_cons, append_empty_l in E. injection E as -> _.
    simpl in H1. now rewrite Ascii.eqb_refl in H1.
  - rewrite !append_cons in E. injection E as -> E.
    simpl in H1, H2. apply orb_false_iff in H1 as [_ H1], H2 as [_ H2].
    destruct (IH a2 H1 H2 E) as [-> ->]. now split.
Qed.

Lemma getEntityUrl_form (entityType id : prim) :
  getEntityUrl entityType id
  = String slash (Js.to_string entityType +:+ String slash (Js.to_string id)).
Proof. unfold getEntityUrl. now rewrite !append_assoc. Qed.

(** X6.  [getEntityUrl] is "/" + type + "/" + id.  When the entity type
    has no "/", the URL splits on "/" into an empty segment, the type and
    the segments of the id, and the URL determines the type and the id (as
    strings): two entities get the same URL only if their types and ids
    print the same. *)
Theorem getEntityUrl_determines_entity (type1 type2 id1 id2 : prim) :
  contains slash (Js.to_string type1) = false ->
  contains slash (Js.to_string type2) = false ->
  split slash (getEntityUrl type1 id1)
  = [""; Js.to_string type1] ++ split slash (Js.to_string id1)
  /\ (getEntityUrl type1 id1 = getEntityUrl type2 id2 ->
      Js.to_string type1 = Js.to_string type2
      /\ Js.to_string id1 = Js.to_string id2).
Proof.
  intros H1 H2. rewrite !getEntityUrl_form. split.
  - simpl split.
    now rewrite split_app_sep, (split_without_sep _ _ H1).
  - intros [= E]. now apply (cut_at_first_unique slash).
Qed.

Lemma getEntityUrl_determines_entity_witness :
  getEntityUrl (VString ITEM) (VNumber (SafeInteger 42 eq_refl)) = "/item/42"
  /\ split slash (getEntityUrl (VString ITEM) (VNumber (SafeInteger 42 eq_refl)))
     = [""; "item"; "42"]
  /\ (getEntityUrl (VString ITEM) (VNumber (SafeInteger 42 eq_refl))
      = getEntityUrl (VString ITEM) (VString "42") ->
      Js.to_string (VNumber (SafeInteger 42 eq_refl)) = Js.to_string (VString "42")).
Proof.
  destruct (getEntityUrl_determines_entity
              (VString ITEM) (VString ITEM)
              (VNumber (SafeInteger 42 eq_refl)) (VString "42") eq_refl eq_refl)
    as [Hsplit Hsame].
  split; [reflexivity|]. split; [exact Hsplit|].
  intros E. now destruct (Hsame E).
Defined.

End GetEntityUrl.

(** ** Computations that only read *)

Section ReadsOnly.

Import Url.

Lemma reads_only_ret {A} (a : A) : reads_only (mret a).
Proof. intros st. exists []. simpl. now rewrite after_no_calls. Qed.

Lemma reads_only_throw {A} (e : string) : reads_only (mthrow (A := A) e).
Proof. intros st. exists []. simpl. now rewrite after_no_calls. Qed.

Lemma reads_only_log (c : fs_call) : reads_only (log_call c).
Proof. intros st. now exists [c]. Qed.

Lemma reads_only_bind {A B} (m : M A) (k : A -> M B) :
  reads_only m -> (forall a, reads_only (k a)) -> reads_only (m ≫= k).
Proof.
  intros Hm Hk st. destruct (Hm st) as [c1 H1].
  unfold mbind, M_bind. destruct (m st) as [[a|e] st1]; simpl in H1; subst st1.
  - destruct (Hk a (after_calls st c1)) as [c2 H2].
    exists (c1 ++ c2). now rewrite H2, after_calls_app.
  - now exists c1.
Qed.

Context (h : host).

Lemma reads_only_existsSync (p : string) : reads_only (existsSync h p).
Proof.
  apply reads_only_bind; [apply reads_only_log|intros _; apply reads_only_ret].
Qed.

Lemma reads_only_readFileSync (p : string) : reads_only (readFileSync h p).
Proof.
  apply reads_only_bind; [apply reads_only_log|intros _].
  destruct (fs_readFileSync h p); [apply reads_only_ret|apply reads_only_throw].
Qed.

Lemma reads_only_createFileHash (p : string) : reads_only (createFileHash h p).
Proof.
  apply reads_only_bind; [apply reads_only_existsSync|intros [|]].
  - apply reads_only_bind; [apply reads_only_readFileSync|intros ?; apply reads_only_ret].
  - apply reads_only_ret.
Qed.

Lemma reads_only_getImageUrl (entityType imageType id variationId : prim) :
  reads_only (getImageUrl h entityType imageType id variationId).
Proof.
  unfold getImageUrl. destruct (_ || _ || _); [|apply reads_only_ret].
  repeat (apply reads_only_bind; [apply reads_only_existsSync|intros [|]];
          [apply reads_only_ret|]).
  apply reads_only_ret.
Qed.

Lemma reads_only_computeStaticAssetUrl (inputUrl computedHash : prim) :
  reads_only (computeStaticAssetUrl h inputUrl computedHash).
Proof.
  destruct inputUrl; try apply reads_only_ret.
  apply reads_only_bind.
  - destruct (Js.truthy computedHash);
      [apply reads_only_ret|apply reads_only_createFileHash].
  - intros hash. destruct (Js.truthy hash); apply reads_only_ret.
Qed.

Lemma reads_only_getEntityImageData
      (entityType id variationId usePlaceholderImage : prim) :
  reads_only (getEntityImageData h entityType id variationId usePlaceholderImage).
Proof.
  unfold getEntityImageData.
  apply reads_only_bind; [apply reads_only_getImageUrl|intros url].
  destruct (negb (Js.truthy url)).
  - destruct (Js.truthy _); apply reads_only_ret.
  - apply reads_only_bind.
    { destruct url; try apply reads_only_throw. apply reads_only_createFileHash. }
    intros hash.
    repeat (apply reads_only_bind;
            [first [apply reads_only_getImageUrl|apply reads_only_computeStaticAssetUrl]
            |intros ?]).
    apply reads_only_ret.
Qed.

End ReadsOnly.

(** X7.  Only [getCacheBustedUrl] writes: [createFileHash], [getImageUrl],
    [computeStaticAssetUrl] and [getEntityImageData] leave [staticCache]
    as it is for every argument, also when they throw, and never remove
    anything from the record of filesystem calls. *)
Theorem only_getCacheBustedUrl_writes (h : host) (st : state) :
  (forall p,
     staticCache (snd (Url.createFileHash h p st)) = staticCache st
     /\ fs_calls st `prefix_of` fs_calls (snd (Url.createFileHash h p st)))
  /\ (forall entityType imageType id variationId,
        let st' := snd (Url.getImageUrl h entityType imageType id variationId st) in
        staticCache st' = staticCache st /\ fs_calls st `prefix_of` fs_calls st')
  /\ (forall inputUrl computedHash,
        let st' := snd (Url.computeStaticAssetUrl h inputUrl computedHash st) in
        staticCache st' = staticCache st /\ fs_calls st `prefix_of` fs_calls st')
  /\ (forall entityType id variationId usePlaceholderImage,
        let st' := snd (Url.getEntityImageData h entityType id variationId
                                               usePlaceholderImage st) in
        staticCache st' = staticCache st /\ fs_calls st `prefix_of` fs_calls st').
Proof.
  assert (Hframe : forall A (m : M A), reads_only m ->
            staticCache (snd (m st)) = staticCache st
            /\ fs_calls st `prefix_of` fs_calls (snd (m st))).
  { intros A m Hm. destruct (Hm st) as [calls ->]. split; [reflexivity|].
    now exists calls. }
  split; [|split; [|split]]; intros; apply Hframe.
  - apply reads_only_createFileHash.
  - apply reads_only_getImageUrl.
  - apply reads_only_computeStaticAssetUrl.
  - apply reads_only_getEntityImageData.
Qed.

(** ** More on [getImageUrl] *)

Section GetImageUrlMore.

Import JsString Url.

Lemma size_tag_cases (imageType : prim) :
  (exists size, imageType = VString size /\ In size Spec.sizes)
  \/ (Js.loose_eq_tag imageType THUMB || Js.loose_eq_tag imageType MEDIUM
      || Js.loose_eq_tag imageType FULL = false).
Proof.
  destruct imageType as [| | | |s]; try (right; reflexivity). simpl.
  destruct (String.eqb_spec s THUMB) as [->|_];
    [left; exists THUMB; split; [reflexivity|now left]|].
  destruct (String.eqb_spec s MEDIUM) as [->|_];
    [left; exists MEDIUM; split; [reflexivity|now right; left]|].
  destruct (String.eqb_spec s FULL) as [->|_];
    [left; exists FULL; split; [reflexivity|now right; right; left]|].
  now right.
Qed.

Lemma first_match_length (exist : string -> bool) (entityType imageId : string)
      (exts : list string) :
  List.length (snd (Spec.first_match exist entityType imageId exts))
  <= List.length exts.
Proof.
  induction exts as [|ext exts IH]; simpl; [lia|].
  destruct (exist _); simpl; [lia|].
  destruct (Spec.first_match exist entityType imageId exts). simpl in *. lia.
Qed.

Lemma image_url_extension (entityType size imageId ext : string) :
  In ext Spec.extensions ->
  "." +:+ last_segment (Spec.image_url entityType size imageId ext) = ext.
Proof.
  intros Hext. unfold Spec.image_url.
  assert (Hcut : forall x, contains dot x = false ->
            last_segment ("/images/" +:+ entityType +:+ "s/" +:+ size +:+ "/"
                          +:+ imageId +:+ String dot x) = x).
  { intros x Hx.
    replace ("/images/" +:+ entityType +:+ "s/" +:+ size +:+ "/"
             +:+ imageId +:+ String dot x)
      with (("/images/" +:+ entityType +:+ "s/" +:+ size +:+ "/" +:+ imageId)
            +:+ String dot x)
      by now rewrite !append_assoc.
    now apply last_segment_at_dot. }
  destruct Hext as [<-|[<-|[<-|[]]]]; now rewrite Hcut.
Qed.

(** The run of [getImageUrl] for any size tag. *)
Lemma getImageUrl_any (h : host) (entityType imageType id variationId : prim)
      (st : state) :
  exists (found : option string) (probed : list string),
    getImageUrl h entityType imageType id variationId st
    = (Return (image_result (Js.to_string entityType) (Js.to_string imageType)
                            (Spec.image_id id variationId) found),
       after_calls st (map ExistsSync probed))
    /\ List.length probed <= 3
    /\ (forall ext, found = Some ext -> In ext Spec.extensions).
Proof.
  destruct (size_tag_cases imageType) as [(size & -> & Hsize)|Hno].
  - rewrite getImageUrl_run by exact Hsize. cbv zeta.
    pose proof (first_match_length (fs_existsSync h) (Js.to_string entityType)
                  (Spec.image_id id variationId) Spec.extensions) as Hlen.
    pose proof (first_match_found (fs_existsSync h) (Js.to_string entityType)
                  (Spec.image_id id variationId) Spec.extensions) as Hfound.
    destruct (Spec.first_match _ _ _ _) as [found probed]. simpl in Hlen, Hfound.
    exists found, probed. split; [reflexivity|]. split; [exact Hlen|].
    intros ext ->. now destruct (Hfound ext eq_refl).
  - exists None, []. unfold getImageUrl. rewrite Hno. simpl.
    rewrite after_no_calls. repeat split; [lia|discriminate].
Qed.

(** X8.  For every argument [getImageUrl] returns without an exception,
    after at most three calls to the filesystem, all of them [existsSync];
    the result is undefined or a non-empty string that ends in one of
    [.png], [.jpg], [.jpeg], so the caller's test [!url] means "no image"
    and a result is never one of the [.svg] placeholders. *)
Theorem getImageUrl_result (h : host) (entityType imageType id variationId : prim)
        (st : state) :
  exists (result : prim) (probed : list string),
    getImageUrl h entityType imageType id variationId st
    = (Return result, after_calls st (map ExistsSync probed))
    /\ List.length probed <= 3
    /\ (result = VUndefined
        \/ exists url, result = VString url
             /\ Js.truthy result = true
             /\ In ("." +:+ last_segment url) Spec.extensions)
    /\ forall size, result <> VString (getImageNotFoundFilename size).
Proof.
  destruct (getImageUrl_any h entityType imageType id variationId st)
    as (found & probed & Hrun & Hlen & Hext).
  eexists _, probed. split; [exact Hrun|]. split; [exact Hlen|].
  destruct found as [ext|]; simpl.
  - specialize (Hext ext eq_refl). split.
    + right. eexists. split; [reflexivity|]. split; [reflexivity|].
      now rewrite image_url_extension.
    + intros size E.
      assert (Hsvg : last_segment (getImageNotFoundFilename size) = "svg").
      { unfold getImageNotFoundFilename.
        change ".svg" with (String dot "svg"). now apply last_segment_at_dot. }
      assert (E' : last_segment (Spec.image_url (Js.to_string entityType)
                     (Js.to_string imageType) (Spec.image_id id variationId) ext)
                   = "svg") by (rewrite <- Hsvg; congruence).
      clear E. rename E' into E.
      pose proof (image_url_extension (Js.to_string entityType)
                    (Js.to_string imageType) (Spec.image_id id variationId) ext Hext)
        as Hlast.
      rewrite E in Hlast. subst ext.
      destruct Hext as [E'|[E'|[E'|[]]]]; discriminate.
  - split; [now left|discriminate].
Qed.

(** X9.  The three sizes agree: for two recognised sizes, in whatever
    states, [getImageUrl] finds the same extension or none for both, after
    the same probes; the URLs differ in the size segment only. *)
Theorem getImageUrl_sizes_agree
        (h : host) (entityType id variationId : prim) (size1 size2 : string)
        (st1 st2 : state) :
  In size1 Spec.sizes -> In size2 Spec.sizes ->
  let et := Js.to_string entityType in
  let imageId := Spec.image_id id variationId in
  exists (found : option string) (probed : list string),
    getImageUrl h entityType (VString size1) id variationId st1
    = (Return (image_result et size1 imageId found),
       after_calls st1 (map ExistsSync probed))
    /\ getImageUrl h entityType (VString size2) id variationId st2
       = (Return (image_result et size2 imageId found),
          after_calls st2 (map ExistsSync probed)).
Proof.
  intros H1 H2 et imageId.
  rewrite !getImageUrl_run by assumption. cbv zeta. fold et imageId.
  destruct (Spec.first_match (fs_existsSync h) et imageId Spec.extensions)
    as [found probed].
  now exists found, probed.
Qed.

Lemma getImageUrl_sizes_agree_witness :
  exists (found : option string) (probed : list string),
    getImageUrl Samples.only_jpeg Samples.item (VString "thumb") Samples.five
                VUndefined Samples.fresh
    = (Return (image_result "item" "thumb" "5" found),
       after_calls Samples.fresh (map ExistsSync probed))
    /\ getImageUrl Samples.only_jpeg Samples.item (VString "full") Samples.five
                   VUndefined Samples.fresh
       = (Return (image_result "item" "full" "5" found),
          after_calls Samples.fresh (map ExistsSync probed)).
Proof.
  apply (getImageUrl_sizes_agree Samples.only_jpeg Samples.item Samples.five
           VUndefined "thumb" "full" Samples.fresh Samples.fresh).
  - left. reflexivity.
  - right. right. left. reflexivity.
Defined.

(** A falsy variation id is no variation id. *)
Lemma getImageUrl_falsy_variation (h : host) (entityType imageType id variationId : prim) :
  Js.truthy variationId = false ->
  getImageUrl h entityType imageType id variationId
  = getImageUrl h entityType imageType id VUndefined.
Proof. intros Hv. unfold getImageUrl. now rewrite Hv. Qed.

(** X10.  A variation id that is falsy (undefined, null, the empty string,
    the number 0, false) is no variation id: [getImageUrl] and
    [getEntityImageData] behave as without it, down to the filesystem
    calls. *)
Theorem falsy_variation_ignored
        (h : host) (entityType imageType id variationId flag : prim) (st : state) :
  Js.truthy variationId = false ->
  getImageUrl h entityType imageType id variationId st
  = getImageUrl h entityType imageType id VUndefined st
  /\ getEntityImageData h entityType id variationId flag st
     = getEntityImageData h entityType id VUndefined flag st.
Proof.
  intros Hv. split.
  - now rewrite getImageUrl_falsy_variation.
  - unfold getEntityImageData.
    now rewrite !(getImageUrl_falsy_variation h entityType _ id variationId Hv).
Qed.

Lemma falsy_variation_ignored_witness :
  fst (getImageUrl Samples.only_jpeg Samples.item (VString "full") Samples.five
                   (VNumber (SafeInteger 0 eq_refl)) Samples.fresh)
  = Return (VString "/images/items/full/5.jpeg")
  /\ fst (getImageUrl EdgeSamples.variation_only Samples.item (VString "full")
                      Samples.five (VString "red") Samples.fresh)
     = Return (VString "/images/items/full/5-vv-red.png").
Proof.
  destruct (falsy_variation_ignored Samples.only_jpeg Samples.item (VString "full")
              Samples.five (VNumber (SafeInteger 0 eq_refl)) VUndefined
              Samples.fresh eq_refl) as [Hurl _].
  split; [rewrite Hurl|]; vm_compute; reflexivity.
Defined.

End GetImageUrlMore.

(** ** More on [computeStaticAssetUrl] and [getEntityImageData] *)

Section EntityImageDataMore.

Import JsString Url.

Lemma bind_inv {A B} (m : M A) (k : A -> M B) (st st' : state) (b : B) :
  (m ≫= k) st = (Return b, st') ->
  exists a st1, m st = (Return a, st1) /\ k a st1 = (Return b, st').
Proof.
  unfold mbind, M_bind. destruct (m st) as [[a|e] st1]; [|discriminate].
  intros E. now exists a, st1.
Qed.

Context (h : host).

(** What [computeStaticAssetUrl] returns on a string. *)
Lemma computeStaticAssetUrl_returns (url : string) (computedHash result : prim)
      (st st' : state) :
  computeStaticAssetUrl h (VString url) computedHash st = (Return result, st') ->
  exists s, result = VString s
    /\ last_segment s = last_segment url
    /\ (s = url \/ exists hash, Js.truthy hash = true /\ s = addHashToUrl url hash).
Proof.
  destruct (Js.truthy computedHash) eqn:Hhash.
  - rewrite computeStaticAssetUrl_given by exact Hhash. intros [= <- <-].
    eexists. split; [reflexivity|]. split; [apply last_segment_spliced|].
    right. now exists computedHash.
  - rewrite computeStaticAssetUrl_computed by exact Hhash. cbv zeta.
    destruct (fs_existsSync h (public_path h url)).
    + destruct (fs_readFileSync h (public_path h url)) as [text|]; [|discriminate].
      intros [= <- <-]. eexists. split; [reflexivity|].
      split; [apply last_segment_spliced|].
      right. eexists. split; [|reflexivity]. apply file_hash_truthy.
    + intros [= <- <-]. exists url. repeat split. now left.
Qed.

(** X11.  On a string [computeStaticAssetUrl] returns a string whenever it
    returns: the input itself or the input with a hash spliced in.  The
    part after the last "." is that of the input, and a non-empty input
    gives a non-empty (truthy) result. *)
Theorem computeStaticAssetUrl_keeps_extension
        (url : string) (computedHash result : prim) (st st' : state) :
  computeStaticAssetUrl h (VString url) computedHash st = (Return result, st') ->
  exists s, result = VString s
    /\ last_segment s = last_segment url
    /\ (url <> "" -> Js.truthy result = true).
Proof.
  intros Hrun.
  destruct (computeStaticAssetUrl_returns url computedHash result st st' Hrun)
    as (s & -> & Hlast & Hform).
  exists s. split; [reflexivity|]. split; [exact Hlast|].
  intros Hurl. simpl. destruct Hform as [->|(hash & _ & ->)].
  - now destruct (String.eqb_spec url "").
  - rewrite addHashToUrl_join_item.
    destruct (String.eqb_spec (addHashToUrl url (VString (Js.join_item hash))) "")
      as [E|_]; [|reflexivity].
    apply (f_equal String.length) in E. rewrite addHashToUrl_length in E.
    simpl in E. lia.
Qed.

Lemma getEntityImageData_start
      (entityType id variationId flag : prim) (ext : string)
      (probed : list string) (st : state) :
  let et := Js.to_string entityType in
  let imageId := Spec.image_id id variationId in
  Spec.first_match (fs_existsSync h) et imageId Spec.extensions = (Some ext, probed) ->
  getEntityImageData h entityType id variationId flag st
  = (hash ← createFileHash h (public_path h (Spec.image_url et "full" imageId ext));
     thumbUrl ← getImageUrl h entityType (VString THUMB) id variationId;
     thumbData ← computeStaticAssetUrl h thumbUrl hash;
     mediumUrl ← getImageUrl h entityType (VString MEDIUM) id variationId;
     mediumData ← computeStaticAssetUrl h mediumUrl hash;
     fullUrl ← getImageUrl h entityType (VString FULL) id variationId;
     fullData ← computeStaticAssetUrl h fullUrl hash;
     mret (Some {| thumb := thumbData; medium := mediumData; full := fullData |}))
      (after_calls st (map ExistsSync probed)).
Proof.
  intros et imageId Hfm. unfold getEntityImageData.
  rewrite (bind_run _ _ _ _ _
             (getImageUrl_found h entityType id variationId FULL ext probed st
                ltac:(right; right; left; reflexivity) Hfm)).
  cbv beta. rewrite image_url_truthy. reflexivity.
Qed.

End EntityImageDataMore.

Section EntityImageDataShape.

Import JsString Url.

Lemma computeStaticAssetUrl_keeps_extension_witness :
  computeStaticAssetUrl Samples.stylesheet_only (VString "/css/site.css") VUndefined
                        Samples.fresh
  = (Return (VString "/css/site.f2b804d.css"),
     after_calls Samples.fresh
       [ExistsSync "/srv/villagerdb/public/css/site.css";
        ReadFileSync "/srv/villagerdb/public/css/site.css"])
  /\ last_segment "/css/site.f2b804d.css" = last_segment "/css/site.css".
Proof.
  assert (Hrun : computeStaticAssetUrl Samples.stylesheet_only (VString "/css/site.css")
                   VUndefined Samples.fresh
                 = (Return (VString "/css/site.f2b804d.css"),
                    after_calls Samples.fresh
                      [ExistsSync "/srv/villagerdb/public/css/site.css";
                       ReadFileSync "/srv/villagerdb/public/css/site.css"]))
    by (vm_compute; reflexivity).
  split; [exact Hrun|].
  destruct (computeStaticAssetUrl_keeps_extension Samples.stylesheet_only _ _ _ _ _ Hrun)
    as (s & [= <-] & Hlast & _).
  exact Hlast.
Defined.

(** X12.  When the image that the probe finds cannot be read (it is a
    directory, say), [getEntityImageData] throws, whatever the placeholder
    flag: the error of [readFileSync] is not caught and no placeholder is
    returned.  The read is the last filesystem call made. *)
Theorem getEntityImageData_unreadable
        (h : host) (entityType id variationId flag : prim) (ext : string)
        (probed : list string) (st : state) :
  let et := Js.to_string entityType in
  let imageId := Spec.image_id id variationId in
  let file := public_path h (Spec.image_url et "full" imageId ext) in
  Spec.first_match (fs_existsSync h) et imageId Spec.extensions = (Some ext, probed) ->
  fs_existsSync h file = true ->
  fs_readFileSync h file = None ->
  getEntityImageData h entityType id variationId flag st
  = (Throw "readFileSync",
     after_calls st (map ExistsSync probed ++ [ExistsSync file; ReadFileSync file])).
Proof.
  intros et imageId file Hfm Hex Hread.
  rewrite (getEntityImageData_start h entityType id variationId flag ext probed st Hfm).
  fold et imageId file. unfold mbind at 1. unfold M_bind at 1.
  rewrite createFileHash_run, Hex, Hread. now rewrite after_calls_app.
Qed.

Lemma getEntityImageData_unreadable_witness :
  fst (getEntityImageData EdgeSamples.directory_as_image Samples.item Samples.five
                          VUndefined (VBool true) Samples.fresh)
  = Throw "readFileSync".
Proof.
  rewrite (getEntityImageData_unreadable EdgeSamples.directory_as_image Samples.item
             Samples.five VUndefined (VBool true) ".png"
             ["./public/images/items/full/5.png"] Samples.fresh);
    vm_compute; reflexivity.
Defined.

(** X13.  Whenever [getEntityImageData] returns: without an image the
    result is the placeholder record if the flag is undefined or truthy
    and nothing otherwise (so [null], [0] and the empty string switch the
    placeholders off, and any other value switches them on); with an image
    the result is always a record of three strings, each ending in the
    extension that was found, so never a [.svg] placeholder. *)
Theorem getEntityImageData_result
        (h : host) (entityType id variationId flag : prim)
        (result : option image_data) (st st' : state) :
  let et := Js.to_string entityType in
  let imageId := Spec.image_id id variationId in
  getEntityImageData h entityType id variationId flag st = (Return result, st') ->
  match fst (Spec.first_match (fs_existsSync h) et imageId Spec.extensions) with
  | None =>
      result = if Js.truthy (Js.default_param (VBool true) flag)
               then Some Spec.placeholders else None
  | Some ext =>
      exists t m f : string,
        result = Some {| thumb := VString t; medium := VString m; full := VString f |}
        /\ "." +:+ last_segment t = ext
        /\ "." +:+ last_segment m = ext
        /\ "." +:+ last_segment f = ext
  end.
Proof.
  intros et imageId Hrun.
  pose proof (first_match_found (fs_existsSync h) et imageId Spec.extensions) as Hfound.
  pose proof (first_match_none (fs_existsSync h) et imageId Spec.extensions) as Hnone.
  destruct (Spec.first_match (fs_existsSync h) et imageId Spec.extensions)
    as [[ext|] probed] eqn:Hfm; simpl in *.
  - destruct (Hfound ext eq_refl) as [Hext _].
    rewrite (getEntityImageData_start h entityType id variationId flag ext probed st Hfm)
      in Hrun.
    assert (Hurl : forall size st0, In size Spec.sizes ->
              getImageUrl h entityType (VString size) id variationId st0
              = (Return (VString (Spec.image_url et size imageId ext)),
                 after_calls st0 (map ExistsSync probed))).
    { intros size st0 Hsize. now apply getImageUrl_found. }
    apply bind_inv in Hrun as (hash & s1 & _ & Hrun).
    rewrite (bind_run _ _ _ _ _ (Hurl THUMB s1 ltac:(left; reflexivity))) in Hrun.
    apply bind_inv in Hrun as (thumbData & s2 & Ht & Hrun).
    rewrite (bind_run _ _ _ _ _ (Hurl MEDIUM s2 ltac:(right; left; reflexivity))) in Hrun.
    apply bind_inv in Hrun as (mediumData & s3 & Hm & Hrun).
    rewrite (bind_run _ _ _ _ _ (Hurl FULL s3 ltac:(right; right; left; reflexivity)))
      in Hrun.
    apply bind_inv in Hrun as (fullData & s4 & Hf & Hrun).
    injection Hrun as <- _.
    apply computeStaticAssetUrl_returns in Ht as (t & -> & Ht & _).
    apply computeStaticAssetUrl_returns in Hm as (m & -> & Hm & _).
    apply computeStaticAssetUrl_returns in Hf as (f & -> & Hf & _).
    exists t, m, f. split; [reflexivity|].
    rewrite Ht, Hm, Hf. now rewrite !image_url_extension.
  - assert (Hmissing : forall c, In c (Spec.candidates et imageId) ->
                                 fs_existsSync h c = false).
    { intros c Hc. apply in_map_iff in Hc as (ext & <- & Hext).
      now apply Hnone. }
    rewrite (getEntityImageData_missing h entityType id variationId flag st Hmissing)
      in Hrun.
    now injection Hrun as <- _.
Qed.

Lemma getEntityImageData_result_witness :
  fst (getEntityImageData Samples.stylesheet_only Samples.item Samples.five VUndefined
                          VNull Samples.fresh)
  = Return None
  /\ fst (getEntityImageData Samples.stylesheet_only Samples.item Samples.five VUndefined
                             (VString "no") Samples.fresh)
     = Return (Some Spec.placeholders).
Proof.
  assert (Hshape : forall flag,
            exists result st',
              getEntityImageData Samples.stylesheet_only Samples.item Samples.five
                                 VUndefined flag Samples.fresh = (Return result, st')
              /\ result = if Js.truthy (Js.default_param (VBool true) flag)
                          then Some Spec.placeholders else None).
  { intros flag.
    destruct (getEntityImageData Samples.stylesheet_only Samples.item Samples.five
                VUndefined flag Samples.fresh) as [[result|e] st'] eqn:Hrun.
    - exists result, st'. split; [reflexivity|].
      exact (getEntityImageData_result Samples.stylesheet_only Samples.item
               Samples.five VUndefined flag result Samples.fresh st' Hrun).
    - exfalso.
      rewrite (getEntityImageData_missing Samples.stylesheet_only) in Hrun;
        [discriminate|].
      intros c [<-|[<-|[<-|[]]]]; vm_compute; reflexivity. }
  split.
  - destruct (Hshape VNull) as (result & st' & Hrun & ->). now rewrite Hrun.
  - destruct (Hshape (VString "no")) as (result & st' & Hrun & ->). now rewrite Hrun.
Defined.

End EntityImageDataShape.

(** ** More on [getCacheBustedUrl] *)

Section CacheMore.

Import JsString Url.



Lemma getCacheBustedUrl_cache (h : host) (inputUrl : prim) (st : state) :
  staticCache (snd (getCacheBustedUrl h inputUrl st)) = staticCache st
  \/ exists computed,
       Js.truthy_value (get_property (staticCache st) (Js.to_string inputUrl)) = false
       /\ fst (computeStaticAssetUrl h inputUrl VUndefined st) = Return computed
       /\ staticCache (snd (getCacheBustedUrl h inputUrl st))
          = set_property (staticCache st) (Js.to_string inputUrl) computed.
Proof.
  rewrite getCacheBustedUrl_run. cbv zeta.
  destruct (Js.truthy_value _) eqn:Hcached; [now left|].
  destruct (computeStaticAssetUrl_effect h inputUrl VUndefined st)
    as (calls & Hst & _).
  destruct (computeStaticAssetUrl h inputUrl VUndefined st) as [[computed|e] st'];
    simpl in Hst; subst st'; [|now left].
  right. now exists computed.
Qed.

(** X15.  Entries are never evicted: a call of [getCacheBustedUrl], with
    whatever input, keeps every key of [staticCache], and keeps the value
    of every entry that is truthy. *)
Theorem getCacheBustedUrl_keeps_entries
        (h : host) (inputUrl : prim) (st : state) (key : string) (p : prim) :
  staticCache st !! key = Some p ->
  let st1 := snd (getCacheBustedUrl h inputUrl st) in
  is_Some (staticCache st1 !! key)
  /\ (Js.truthy p = true -> staticCache st1 !! key = Some p).
Proof.
  intros Hkey st1. subst st1.
  destruct (getCacheBustedUrl_cache h inputUrl st)
    as [->|(computed & Hmiss & _ & ->)]; [now rewrite Hkey; eauto|].
  unfold set_property. destruct (String.eqb _ "__proto__"); [rewrite Hkey; eauto|].
  destruct (decide (Js.to_string inputUrl = key)) as [E|Hne].
  - subst key. rewrite lookup_insert_eq. split; [eauto|]. intros Hp.
    unfold get_property in Hmiss. rewrite Hkey in Hmiss. simpl in Hmiss. congruence.
  - rewrite lookup_insert_ne by exact Hne. rewrite Hkey. eauto.
Qed.

Lemma getCacheBustedUrl_keeps_entries_witness :
  staticCache (snd (getCacheBustedUrl Samples.bare (VString "/js/app.js")
                      (State {["/css/site.css" := VString "/css/site.f2b804d.css"]} [])))
  !! "/css/site.css"
  = Some (VString "/css/site.f2b804d.css").
Proof.
  apply (getCacheBustedUrl_keeps_entries Samples.bare (VString "/js/app.js")
           (State {["/css/site.css" := VString "/css/site.f2b804d.css"]} [])
           "/css/site.css" (VString "/css/site.f2b804d.css")).
  - apply lookup_singleton_eq.
  - reflexivity.
Defined.

Lemma computed_string (h : host) (url : string) (computed : prim) (st : state) :
  fst (computeStaticAssetUrl h (VString url) VUndefined st) = Return computed ->
  computed = VString url
  \/ exists hash : string,
       String.length hash = 7
       /\ string_forall is_lower_hex hash = true
       /\ computed = VString (addHashToUrl url (VString hash)).
Proof.
  rewrite computeStaticAssetUrl_computed by reflexivity. cbv zeta.
  destruct (fs_existsSync h (public_path h url)).
  - destruct (fs_readFileSync h (public_path h url)) as [text|]; [|discriminate].
    simpl. intros [= <-]. right. exists (Spec.asset_hash text).
    split; [apply file_hash_length|].
    split; [apply string_forall_substr0, md5_hex_lower|reflexivity].
  - simpl. intros [= <-]. now left.
Qed.

Lemma computed_entry (h : host) (inputUrl computed : prim) (st : state) :
  fst (computeStaticAssetUrl h inputUrl VUndefined st) = Return computed ->
  cache_entry (Js.to_string inputUrl) computed.
Proof.
  destruct inputUrl as [| | | |url];
    try (simpl; intros [= <-]; now left).
  intros Hc. right. exact (computed_string h url computed st Hc).
Qed.

Lemma getCacheBustedUrl_invariant (h : host) (inputUrl : prim) (st : state) :
  cache_entries (staticCache st) ->
  cache_entries (staticCache (snd (getCacheBustedUrl h inputUrl st))).
Proof.
  intros Hok.
  destruct (getCacheBustedUrl_cache h inputUrl st)
    as [->|(computed & _ & Hcomputed & ->)]; [exact Hok|].
  unfold set_property. destruct (String.eqb _ "__proto__"); [exact Hok|].
  intros key p. destruct (decide (Js.to_string inputUrl = key)) as [<-|Hne].
  - rewrite lookup_insert_eq. intros [= <-]. now apply (computed_entry h _ _ st).
  - rewrite lookup_insert_ne by exact Hne. apply Hok.
Qed.

Lemma getCacheBustedUrl_plain (h : host) (inputUrl : prim) (st : state) :
  Spec.plain_object (staticCache st) ->
  Spec.plain_object (staticCache (snd (getCacheBustedUrl h inputUrl st))).
Proof.
  intros Hplain.
  destruct (getCacheBustedUrl_cache h inputUrl st)
    as [->|(computed & _ & _ & ->)]; [exact Hplain|].
  now apply set_property_plain.
Qed.

Lemma after_requests_invariant (requests : list (host * prim)) (st : state) :
  cache_entries (staticCache st) -> Spec.plain_object (staticCache st) ->
  cache_entries (staticCache (after_requests requests st))
  /\ Spec.plain_object (staticCache (after_requests requests st)).
Proof.
  revert st. induction requests as [|[h inputUrl] rest IH]; intros st Hok Hplain;
    [now split|].
  simpl. apply IH.
  - now apply getCacheBustedUrl_invariant.
  - now apply getCacheBustedUrl_plain.
Qed.

(** X16.  Invariant of the cache.  After any calls of [getCacheBustedUrl]
    on the freshly loaded module, whatever the inputs, whatever the
    filesystem at each call and whether the calls return or throw, every
    entry of [staticCache] holds undefined, its own key, or its key with
    seven hex characters spliced in; and a call on a string then returns,
    if it returns, that string, that string with seven hex characters
    spliced in, or, for a name inherited from [Object.prototype], the
    inherited member. *)
Theorem staticCache_invariant
        (requests : list (host * prim)) (trace : list fs_call) :
  let st := after_requests requests (State ∅ trace) in
  cache_entries (staticCache st)
  /\ forall (h : host) (url : string) (v : value) (st' : state),
       getCacheBustedUrl h (VString url) st = (Return v, st') ->
       v = Builtin url
       \/ v = Prim (VString url)
       \/ exists hash : string,
            String.length hash = 7
            /\ string_forall is_lower_hex hash = true
            /\ v = Prim (VString (addHashToUrl url (VString hash))).
Proof.
  intros st.
  destruct (after_requests_invariant requests (State ∅ trace)) as [Hok Hplain].
  { intros key p. simpl. now rewrite lookup_empty. }
  { apply lookup_empty. }
  fold st in Hok, Hplain. split; [exact Hok|].
  intros h url v st' Hrun.
  rewrite getCacheBustedUrl_run in Hrun. cbv zeta in Hrun. simpl Js.to_string in Hrun.
  destruct (Js.truthy_value (get_property (staticCache st) url)) eqn:Hcached.
  - injection Hrun as <- _. unfold get_property in *.
    destruct (staticCache st !! url) as [p|] eqn:Hp.
    + right. destruct (Hok url p Hp) as [->|[->|(hash & Hlen & Hhex & ->)]];
        [discriminate|now left|right; now exists hash].
    + left. now destruct (existsb _ _).
  - pose proof (miss_not_proto _ _ Hplain Hcached) as Hkey.
    destruct (computeStaticAssetUrl_effect h (VString url) VUndefined st)
      as (calls & Hst & _).
    pose proof (computed_string h url) as Hcomputed.
    destruct (computeStaticAssetUrl h (VString url) VUndefined st)
      as [[computed|e] st1] eqn:Hc; [|discriminate].
    simpl in Hst. subst st1. injection Hrun as <- _.
    simpl staticCache.
    destruct (get_set_property (staticCache st) url computed Hkey) as [_ ->].
    assert (Hfst : fst (computeStaticAssetUrl h (VString url) VUndefined st)
                   = Return computed) by now rewrite Hc.
    right. destruct (Hcomputed computed st Hfst) as [->|(hash & Hlen & Hhex & ->)];
      [now left|right; now exists hash].
Qed.

End CacheMore.

(** ** Witnesses for the lemmas on a whole call *)

Section WholeCallWitnesses.

Import Url.

(** A call on the stylesheet reads one file; a call on a number reads
    none. *)
Lemma getCacheBustedUrl_effect_witness :
  Spec.plain_object (staticCache Samples.fresh)
  /\ Spec.hashed (fs_calls (snd (getCacheBustedUrl Samples.stylesheet_only
                                   (VString "/css/site.css") Samples.fresh)))
     = ["/srv/villagerdb/public/css/site.css"]
  /\ exists calls : list fs_call,
       fs_calls (snd (getCacheBustedUrl Samples.stylesheet_only
                        (VString "/css/site.css") Samples.fresh))
       = fs_calls Samples.fresh ++ calls
       /\ List.length (Spec.hashed calls) <= 1.
Proof.
  assert (Hplain : Spec.plain_object (staticCache Samples.fresh)) by reflexivity.
  split; [exact Hplain|]. split; [vm_compute; reflexivity|].
  exact (proj2 (getCacheBustedUrl_effect Samples.stylesheet_only
                  (VString "/css/site.css") Samples.fresh Hplain)).
Defined.


End WholeCallWitnesses.
